(** * Cream: processor registry, processor contract and batch executor

    A shallow embedding of the core of the [cream] package:

    - [cream/core/exceptions.py]   the exception hierarchy;
    - [cream/core/config.py]       the format allow-lists and [max_workers];
    - [cream/core/processor.py]    [BaseProcessor], [ModelBackedProcessor],
                                   [ProcessorRegistry];
    - [cream/audio/audio_processor.py], [cream/text/text_processor.py]
                                   the capability-specific [validate_input];
    - [cream/core/parallel.py]     [ParallelProcessor.process_batch].

    Conventions of the embedding.

    - A Python call that may raise returns a [result]: [Ok v] for a normal
      return, [Raise e] for an exception [e] that leaves the call.
    - Python [str] is [string]; the model covers ASCII text: [str_lower]
      maps [A]..[Z] only and [py_repr_str] keeps bytes above 127 verbatim.
    - A [pathlib.Path] is represented by its string form [str(path)].
    - A Python [dict] is an association list in insertion order whose keys
      are pairwise distinct ([Dict.wf]); assignment to an existing key keeps
      the key's position, as in CPython.
    - [cream/core/logging.py] is not part of the sources at hand.  Calls to
      [logger.debug] / [logger.error] are taken to return normally and are
      left out of the state.
    - The worker function of a batch is a function from a task to its
      outcome: tasks share no mutable state.  The timing of a process pool
      is a parameter, the list of the scheduler's choices.  Tasks and
      results are taken to pickle; what becomes of an exception on its way
      from a worker process to the caller is a parameter ([crossing]), and
      a call that waits for ever for an outcome is [Hangs]. *)

From Stdlib Require Import List String Ascii ZArith Bool Arith Lia.
From Stdlib Require Import Permutation Sorted.
From Stdlib Require DecimalString.
Import ListNotations.
Local Open Scope string_scope.
Local Open Scope list_scope.

Set Implicit Arguments.

(* ================================================================= *)
(** ** Exceptions and results *)

(** [cream/core/exceptions.py]: [CreamError] and its three subclasses.
    Exceptions of other classes (built-in ones such as [TypeError],
    [ValueError], [RuntimeError], or those of third-party libraries) are
    [PyError] with the name of their class. *)
Inductive exn : Type :=
| CreamError (msg : string)
| AudioProcessingError (msg : string)
| TextProcessingError (msg : string)
| ValidationError (msg : string)
| PyError (cls : string) (msg : string).

(** [isinstance(e, CreamError)]. *)
Definition is_cream_error (e : exn) : bool :=
  match e with
  | PyError _ _ => false
  | _ => true
  end.

(** The processing-failure kind of the taxonomy: the two classes
    "raised when audio/text processing operations fail". *)
Definition is_processing_error (e : exn) : bool :=
  match e with
  | AudioProcessingError _ | TextProcessingError _ => true
  | _ => false
  end.

(** The validation kind: [ValidationError]. *)
Definition is_validation_error (e : exn) : bool :=
  match e with
  | ValidationError _ => true
  | _ => false
  end.

Definition exn_message (e : exn) : string :=
  match e with
  | CreamError m | AudioProcessingError m | TextProcessingError m
  | ValidationError m | PyError _ m => m
  end.

Inductive result (A : Type) : Type :=
| Ok (v : A)
| Raise (e : exn).

Arguments Ok {A} v.
Arguments Raise {A} e.

Definition is_ok {A} (r : result A) : bool :=
  match r with Ok _ => true | Raise _ => false end.

(* ================================================================= *)
(** ** Python strings *)

Module PyStr.

Definition is_upper (c : ascii) : bool :=
  let n := nat_of_ascii c in (65 <=? n)%nat && (n <=? 90)%nat.

Definition lower_char (c : ascii) : ascii :=
  if is_upper c then ascii_of_nat (nat_of_ascii c + 32) else c.

(** [s.lower()] *)
Fixpoint str_lower (s : string) : string :=
  match s with
  | EmptyString => EmptyString
  | String c r => String (lower_char c) (str_lower r)
  end.

(** [s.rfind(c)]: the highest index of [c] in [s], or [-1]. *)
Fixpoint rfind (c : ascii) (s : string) : Z :=
  match s with
  | EmptyString => (-1)%Z
  | String a r =>
      let i := rfind c r in
      if (0 <=? i)%Z then (i + 1)%Z
      else if Ascii.eqb a c then 0%Z else (-1)%Z
  end.

(** [s[i:]] for [0 <= i]. *)
Definition slice_from (i : Z) (s : string) : string :=
  substring (Z.to_nat i) (String.length s - Z.to_nat i) s.

Fixpoint contains_char (c : ascii) (s : string) : bool :=
  match s with
  | EmptyString => false
  | String a r => Ascii.eqb a c || contains_char c r
  end.

Definition hex_digit (n : nat) : ascii :=
  if (n <? 10)%nat then ascii_of_nat (48 + n) else ascii_of_nat (87 + n).

Definition backslash : ascii := ascii_of_nat 92.
Definition squote : ascii := ascii_of_nat 39.
Definition dquote : ascii := ascii_of_nat 34.

(** One character of [repr(s)] with [q] the chosen quote. *)
Definition repr_char (q : ascii) (c : ascii) : string :=
  let n := nat_of_ascii c in
  if Ascii.eqb c q || Ascii.eqb c backslash then String backslash (String c EmptyString)
  else if (n =? 9)%nat then String backslash "t"
  else if (n =? 10)%nat then String backslash "n"
  else if (n =? 13)%nat then String backslash "r"
  else if (n <? 32)%nat || (n =? 127)%nat then
    String backslash
      (String "x" (String (hex_digit (n / 16)) (String (hex_digit (n mod 16)) EmptyString)))
  else String c EmptyString.

Fixpoint repr_body (q : ascii) (s : string) : string :=
  match s with
  | EmptyString => EmptyString
  | String c r => repr_char q c ++ repr_body q r
  end.

(** [repr(s)] for a [str]: single quotes unless [s] has a single quote
    and no double quote. *)
Definition py_repr_str (s : string) : string :=
  let q := if contains_char squote s && negb (contains_char dquote s)
           then dquote else squote in
  String q (repr_body q s ++ String q EmptyString).

Fixpoint join (sep : string) (l : list string) : string :=
  match l with
  | [] => EmptyString
  | [x] => x
  | x :: r => x ++ sep ++ join sep r
  end.

(** [repr(l)] for a list of [str], as an f-string renders [{l}]. *)
Definition py_repr_list (l : list string) : string :=
  "[" ++ join ", " (map py_repr_str l) ++ "]".

(** [x in s] for a set (or list) of strings. *)
Definition str_in (x : string) (l : list string) : bool :=
  existsb (String.eqb x) l.

(** [set(l)]: the distinct elements of [l]. *)
Definition py_set (l : list string) : list string :=
  nodup string_dec l.

Fixpoint insert_sorted (x : string) (l : list string) : list string :=
  match l with
  | [] => [x]
  | y :: r => if String.leb x y then x :: y :: r else y :: insert_sorted x r
  end.

(** [sorted(l)] for strings: ascending in the code-point order. *)
Fixpoint sorted (l : list string) : list string :=
  match l with
  | [] => []
  | x :: r => insert_sorted x (sorted r)
  end.

Definition str_le (a b : string) : Prop := String.leb a b = true.

End PyStr.

(* ================================================================= *)
(** ** Paths *)

Module Path.

Definition t := string.

Definition slash : ascii := ascii_of_nat 47.
Definition dot : ascii := ascii_of_nat 46.

(** [path.name]: the final component. *)
Definition name (p : t) : string :=
  let i := PyStr.rfind slash p in
  if (0 <=? i)%Z then PyStr.slice_from (i + 1) p else p.

(** [path.suffix] ([pathlib], up to Python 3.13):
    [i = name.rfind('.')]; [name[i:]] if [0 < i < len(name) - 1],
    else the empty string. *)
Definition suffix (p : t) : string :=
  let nm := name p in
  let i := PyStr.rfind dot nm in
  if (0 <? i)%Z && (i <? Z.of_nat (String.length nm) - 1)%Z
  then PyStr.slice_from i nm else EmptyString.

(** The path of the file [name] in the directory [dir], or of [name]
    alone. *)
Definition in_dir (dir : option string) (name : string) : t :=
  match dir with
  | Some d => (d ++ String slash name)%string
  | None => name
  end.

End Path.


(* ================================================================= *)
(** ** Configuration ([cream/core/config.py]) *)

Record CreamConfig : Type := {
  audio_formats : list string;
  text_formats : list string;
  max_workers : Z;
  enable_progress_bars : bool
}.

(** The global instance [config = CreamConfig()] with the field defaults. *)
Definition config : CreamConfig := {|
  audio_formats :=
    [".wav"; ".flac"; ".mp3"; ".ogg"; ".opus"; ".m4a"; ".aiff"; ".ac3"; ".wma"];
  text_formats := [".txt"; ".csv"; ".tsv"; ".json"];
  max_workers := 1;
  enable_progress_bars := true
|}.

(* ================================================================= *)
(** ** Python dictionaries with string keys *)

Module Dict.
Section Dict.
Variable V : Type.

Definition t : Type := list (string * V).

Definition empty : t := [].

(** [d[k]] ([None] stands for [KeyError]). *)
Fixpoint get (k : string) (d : t) : option V :=
  match d with
  | [] => None
  | (k', v) :: r => if String.eqb k' k then Some v else get k r
  end.

(** [k in d] *)
Fixpoint contains (k : string) (d : t) : bool :=
  match d with
  | [] => false
  | (k', _) :: r => String.eqb k' k || contains k r
  end.

(** [d[k] = v]: overwrite in place, or append a new entry. *)
Fixpoint set (k : string) (v : V) (d : t) : t :=
  match d with
  | [] => [(k, v)]
  | (k', v') :: r =>
      if String.eqb k' k then (k', v) :: r else (k', v') :: set k v r
  end.

(** [list(d.keys())] *)
Definition keys (d : t) : list string := map fst d.

(** [d.items()] *)
Definition items (d : t) : list (string * V) := d.

(** [dict(d)] *)
Definition copy (d : t) : t := d.

(** The keys of a dictionary are pairwise distinct. *)
Definition wf (d : t) : Prop := NoDup (keys d).

End Dict.
End Dict.

(* ================================================================= *)
(** ** Processors ([cream/core/processor.py]) *)

Section Processors.

(** What [load_model] returns, and the part of the outside world a
    [load_model] body reads and changes (installed packages, caches on
    disk, ...). *)
Variable Model : Type.
Variable Env : Type.

(** The state threaded through construction.  [load_calls] is a ghost
    log: the name of the class is appended each time [load_model] is
    invoked. *)
Record World : Type := {
  env : Env;
  load_calls : list string
}.

(** State and exception monad. *)
Definition M (A : Type) : Type := World -> result A * World.

Definition ret {A} (a : A) : M A := fun w => (Ok a, w).

Definition raise {A} (e : exn) : M A := fun w => (Raise e, w).

Definition bind {A B} (m : M A) (k : A -> M B) : M B :=
  fun w =>
    match m w with
    | (Ok a, w') => k a w'
    | (Raise e, w') => (Raise e, w')
    end.

Notation "x <- c1 ;; c2" := (bind c1 (fun x => c2))
  (at level 61, c1 at next level, right associativity).

(** A processor class.  [cls_mro] lists the names of the classes of
    [__mro__], the class itself first; [cls_abstractmethods] is
    [__abstractmethods__]; [cls_load_model] is the body of the class's
    [load_model], run on the environment. *)
Record PyClass : Type := {
  cls_name : string;
  cls_mro : list string;
  cls_abstractmethods : list string;
  cls_load_model : Env -> result Model * Env
}.

(** A value stored in the registry: a class, or an object that is not a
    class (the case [list_processors_by_base] is defensive about),
    taken to be not callable. *)
Inductive pyobj : Type :=
| PClass (c : PyClass)
| PObject (type_name : string).

(** A processor instance: its class and the [model] attribute. *)
Record Instance : Type := {
  inst_class : string;
  inst_model : option Model
}.

(** [issubclass(o, b)]: classes are identified by name. *)
Definition issubclass (o b : pyobj) : result bool :=
  match o, b with
  | PClass c, PClass bc => Ok (PyStr.str_in (cls_name bc) (cls_mro c))
  | PObject _, _ =>
      Raise (PyError "TypeError" "issubclass() arg 1 must be a class")
  | PClass _, PObject _ =>
      Raise (PyError "TypeError"
               "issubclass() arg 2 must be a class, a tuple of classes, or a union")
  end.

Definition is_model_backed (c : PyClass) : bool :=
  PyStr.str_in "ModelBackedProcessor" (cls_mro c).

(** [self.load_model()], with the ghost log entry. *)
Definition load_model (c : PyClass) : M Model :=
  fun w =>
    let (r, e') := cls_load_model c (env w) in
    (r, {| env := e'; load_calls := load_calls w ++ [cls_name c] |}).

(** [BaseProcessor.__init__]: [pass]. *)
Definition BaseProcessor_init (self : Instance) : M Instance := ret self.

(** [ModelBackedProcessor.__init__]:
    [super().__init__(); self.model = self.load_model()]. *)
Definition ModelBackedProcessor_init (c : PyClass) (self : Instance) : M Instance :=
  self <- BaseProcessor_init self ;;
  m <- load_model c ;;
  ret {| inst_class := inst_class self; inst_model := Some m |}.

(** [cls()]: a class with abstract methods left is refused; otherwise a
    fresh object is made and the [__init__] found along the MRO runs on
    it.  The object is handed to the caller only if [__init__] returns. *)
Definition instantiate (c : PyClass) : M Instance :=
  match cls_abstractmethods c with
  | _ :: _ =>
      raise (PyError "TypeError"
               ("Can't instantiate abstract class " ++ cls_name c))
  | [] =>
      let self := {| inst_class := cls_name c; inst_model := None |} in
      if is_model_backed c then ModelBackedProcessor_init c self
      else BaseProcessor_init self
  end.

(** [o()] *)
Definition call (o : pyobj) : M Instance :=
  match o with
  | PClass c => instantiate c
  | PObject tn =>
      raise (PyError "TypeError" ("'" ++ tn ++ "' object is not callable"))
  end.

(** [n] constructions of the same class, one after the other, each
    outcome kept. *)
Fixpoint instantiate_many (c : PyClass) (n : nat) (w : World)
  : list (result Instance) * World :=
  match n with
  | O => ([], w)
  | S n' =>
      let (r, w') := instantiate c w in
      let (rs, w'') := instantiate_many c n' w' in
      (r :: rs, w'')
  end.

(** *** [ProcessorRegistry] *)

Record ProcessorRegistry : Type := {
  _processors : Dict.t pyobj
}.

(** [ProcessorRegistry()] *)
Definition new_registry : ProcessorRegistry :=
  {| _processors := Dict.empty pyobj |}.

Definition register (self : ProcessorRegistry) (name : string)
           (processor_class : pyobj) : ProcessorRegistry :=
  {| _processors := Dict.set name processor_class (_processors self) |}.

(** [register_decorator(name)(processor_class)]: registers and returns
    the class. *)
Definition register_decorator (self : ProcessorRegistry) (name : string)
           (processor_class : pyobj) : ProcessorRegistry * pyobj :=
  (register self name processor_class, processor_class).

Definition not_found_message (name : string) (available : list string) : string :=
  ("Processor '" ++ name ++ "' not found. Available: "
     ++ PyStr.py_repr_list available)%string.

Definition create (self : ProcessorRegistry) (name : string) : M Instance :=
  if negb (Dict.contains name (_processors self)) then
    let available := Dict.keys (_processors self) in
    let error_msg := not_found_message name available in
    raise (ValidationError error_msg)
  else
    match Dict.get name (_processors self) with
    | Some o => call o
    | None => raise (PyError "KeyError" (PyStr.py_repr_str name))
    end.

Definition list_processors (self : ProcessorRegistry) : list string :=
  Dict.keys (_processors self).

(** The body of the [for] loop of [list_processors_by_base]: the
    [try] / [except Exception: continue] around the [issubclass] test. *)
Definition by_base_step (base_class : pyobj) (results : list string)
           (item : string * pyobj) : list string :=
  let (name, cls) := item in
  match issubclass cls base_class with
  | Ok true => results ++ [name]
  | Ok false => results
  | Raise _ => results
  end.

Definition list_processors_by_base (self : ProcessorRegistry)
           (base_class : pyobj) : list string :=
  fold_left (by_base_step base_class) (Dict.items (_processors self)) [].

Definition get_processor_classes (self : ProcessorRegistry) : Dict.t pyobj :=
  Dict.copy (_processors self).

(** The capability test of one descriptor, an exception counting as a
    failed test. *)
Definition holds (base_class o : pyobj) : bool :=
  match issubclass o base_class with
  | Ok b => b
  | Raise _ => false
  end.

(** The registered type of [name] satisfies the capability [base_class]:
    the check returns, and returns [True]. *)
Definition satisfies (self : ProcessorRegistry) (base_class : pyobj)
           (name : string) : bool :=
  match Dict.get name (_processors self) with
  | Some o =>
      match issubclass o base_class with
      | Ok b => b
      | Raise _ => false
      end
  | None => false
  end.

(** The capability check of the type registered under [name] raises. *)
Definition check_raises (self : ProcessorRegistry) (base_class : pyobj)
           (name : string) : bool :=
  match Dict.get name (_processors self) with
  | Some o => negb (is_ok (issubclass o base_class))
  | None => false
  end.

End Processors.

Arguments PObject {Model Env} type_name.
Arguments new_registry {Model Env}.

(* ================================================================= *)
(** ** Input validation *)

(** The file system as [validate_input] sees it: [input_path.exists()]. *)
Definition FileSystem : Type := Path.t -> bool.

Module BaseProcessor.

Definition validate_input (fs : FileSystem) (input_path : Path.t) : result unit :=
  if negb (fs input_path) then
    let error_msg := ("Input file not found: " ++ input_path)%string in
    Raise (ValidationError error_msg)
  else Ok tt.

End BaseProcessor.

Module BaseAudioProcessor.

Definition SUPPORTED_FORMATS (cfg : CreamConfig) : list string :=
  PyStr.py_set (audio_formats cfg).

Definition unsupported_message (cfg : CreamConfig) (input_path : Path.t) : string :=
  ("Unsupported audio format: " ++ Path.suffix input_path
     ++ ". Supported formats: "
     ++ PyStr.py_repr_list (PyStr.sorted (SUPPORTED_FORMATS cfg)))%string.

Definition validate_input (cfg : CreamConfig) (fs : FileSystem)
           (input_path : Path.t) : result unit :=
  match BaseProcessor.validate_input fs input_path with
  | Raise e => Raise e
  | Ok _ =>
      if negb (PyStr.str_in (PyStr.str_lower (Path.suffix input_path))
                 (SUPPORTED_FORMATS cfg))
      then Raise (ValidationError (unsupported_message cfg input_path))
      else Ok tt
  end.

End BaseAudioProcessor.

Module BaseTextProcessor.

Definition SUPPORTED_FORMATS (cfg : CreamConfig) : list string :=
  PyStr.py_set (text_formats cfg).

Definition unsupported_message (cfg : CreamConfig) (input_path : Path.t) : string :=
  ("Unsupported text format: " ++ Path.suffix input_path
     ++ ". Supported formats: "
     ++ PyStr.py_repr_list (PyStr.sorted (SUPPORTED_FORMATS cfg)))%string.

Definition validate_input (cfg : CreamConfig) (fs : FileSystem)
           (input_path : Path.t) : result unit :=
  match BaseProcessor.validate_input fs input_path with
  | Raise e => Raise e
  | Ok _ =>
      if negb (PyStr.str_in (PyStr.str_lower (Path.suffix input_path))
                 (SUPPORTED_FORMATS cfg))
      then Raise (ValidationError (unsupported_message cfg input_path))
      else Ok tt
  end.

End BaseTextProcessor.

(** The two capability-specific processor bases. *)
Inductive capability : Type := Audio | Text.

Definition allow_list (cap : capability) (cfg : CreamConfig) : list string :=
  match cap with
  | Audio => audio_formats cfg
  | Text => text_formats cfg
  end.

Definition supported_formats (cap : capability) (cfg : CreamConfig) : list string :=
  match cap with
  | Audio => BaseAudioProcessor.SUPPORTED_FORMATS cfg
  | Text => BaseTextProcessor.SUPPORTED_FORMATS cfg
  end.

Definition capability_validate_input (cap : capability)
  : CreamConfig -> FileSystem -> Path.t -> result unit :=
  match cap with
  | Audio => BaseAudioProcessor.validate_input
  | Text => BaseTextProcessor.validate_input
  end.

Definition capability_label (cap : capability) : string :=
  match cap with
  | Audio => "audio"
  | Text => "text"
  end.

(** The message of the extension check, as both bases build it. *)
Definition format_error_message (cap : capability) (cfg : CreamConfig)
           (input_path : Path.t) : string :=
  ("Unsupported " ++ capability_label cap ++ " format: "
     ++ Path.suffix input_path ++ ". Supported formats: "
     ++ PyStr.py_repr_list (PyStr.sorted (PyStr.py_set (allow_list cap cfg))))%string.

(* ================================================================= *)
(** ** The batch executor ([cream/core/parallel.py]) *)

(** How a call ends: it returns or raises, or it never comes back to its
    caller. *)
Inductive ending (A : Type) : Type :=
| Ends (r : result A)
| Hangs.

Arguments Hangs {A}.

(** The call returned a value. *)
Definition ends_ok {A : Type} (e : ending A) : bool :=
  match e with
  | Ends r => is_ok r
  | Hangs => false
  end.

Definition hangs {A : Type} (e : ending A) : bool :=
  match e with
  | Ends _ => false
  | Hangs => true
  end.

(** What becomes of an exception raised by the worker function in a
    process of [multiprocessing.Pool].  The worker process catches an
    [Exception], pickles it and sends it to the caller, where the thread
    that receives the outcomes rebuilds it for the iterator to raise:
    - [Unchanged]: it pickles and is rebuilt as it was;
    - [Encoded message]: it does not pickle, and the worker process sends a
      [MaybeEncodingError] with this message in its place;
    - [TaskLost]: it is no [Exception] ([SystemExit], [KeyboardInterrupt]),
      the worker process ends with it and no outcome of the task is ever
      sent; the pool starts another process for the tasks left;
    - [ReceiverDies]: it pickles but cannot be rebuilt (a class whose
      [__init__] wants more than [args] holds), the receiving thread ends
      with the error of the rebuilding and no outcome arrives any more. *)
Inductive crossing : Type :=
| Unchanged
| Encoded (message : string)
| TaskLost
| ReceiverDies.

Module ParallelProcessor.
Section Executor.

Variable Task : Type.
Variable R : Type.

(** How the exception a task raised crosses from the worker process to the
    caller; read in parallel mode only. *)
Variable transfer : Task -> exn -> crossing.

(** What a run of [process_batch] does, in order.  [Call t] and
    [Completion t] are ghost events: [worker_func(t)] is called by the
    sequential loop, respectively the outcome of [worker_func(t)] is
    delivered by the pool's iterator to the parallel loop.  What the
    workers of a pool do is not recorded: neither the tasks they run whose
    outcome the loop never reads, nor the tasks whose outcome is lost. *)
Inductive event : Type :=
| LogProgressStart (description : string) (total : nat)
| PoolEnter (processes : Z)
| ProgressEnter
| AddTask (description : string) (total : nat)
| Call (t : Task)
| Completion (t : Task)
| Advance
| ProgressExit
| PoolExit
| LogProgressComplete (description : string) (total : nat).

Record t : Type := { num_workers : Z }.

(** [for task in tasks: results.append(worker_func(task)); progress.update(...)]
    started with [results] and the events so far. *)
Fixpoint sequential_loop (worker_func : Task -> result R) (tasks : list Task)
         (results : list R) (tr : list event) : result (list R) * list event :=
  match tasks with
  | [] => (Ok results, tr)
  | task :: rest =>
      match worker_func task with
      | Ok r => sequential_loop worker_func rest (results ++ [r])
                  (tr ++ [Call task; Advance])
      | Raise e => (Raise e, tr ++ [Call task])
      end
  end.

Fixpoint remove_nth (k : nat) (l : list Task) : list Task :=
  match l, k with
  | [], _ => []
  | _ :: r, O => r
  | x :: r, S k' => x :: remove_nth k' r
  end.

(** The order in which a pool of [processes] workers ends the
    [pending] tasks.  Tasks are handed to the workers in submission
    order, one per free worker, so the next task to complete is one of
    the first [processes] tasks still pending; which one is the
    scheduler's choice, read from [sched]. [n] bounds the number of
    completions. *)
Fixpoint completion_order (processes : nat) (sched : list nat)
         (pending : list Task) (n : nat) : list Task :=
  match n with
  | O => []
  | S n' =>
      match pending with
      | [] => []
      | t0 :: _ =>
          let window := Nat.min processes (List.length pending) in
          let k := (hd 0 sched) mod window in
          nth k pending t0
            :: completion_order processes (tl sched) (remove_nth k pending) n'
      end
  end.

(** [pool.imap_unordered(worker_func, tasks)]: the tasks in the order
    the workers end them, which is the order their outcomes are sent. *)
Definition imap_unordered (processes : Z) (sched : list nat)
           (tasks : list Task) : list Task :=
  completion_order (Z.to_nat processes) sched tasks (List.length tasks).

(** [for result in pool.imap_unordered(...): results.append(result); ...]
    The iterator gives the result of a task or raises in the caller what
    arrived of its exception.  It ends when an outcome has arrived for
    every task: with an outcome [lost] it waits for ever after the last
    one that arrives, and so it does once the receiving thread has ended. *)
Fixpoint parallel_loop (worker_func : Task -> result R) (arrivals : list Task)
         (results : list R) (tr : list event) (lost : bool)
  : ending (list R) * list event :=
  match arrivals with
  | [] => if lost then (Hangs, tr) else (Ends (Ok results), tr)
  | task :: rest =>
      match worker_func task with
      | Ok r => parallel_loop worker_func rest (results ++ [r])
                  (tr ++ [Completion task; Advance]) lost
      | Raise e =>
          match transfer task e with
          | Unchanged => (Ends (Raise e), tr ++ [Completion task])
          | Encoded message =>
              (Ends (Raise (PyError "MaybeEncodingError" message)),
               tr ++ [Completion task])
          | TaskLost => parallel_loop worker_func rest results tr true
          | ReceiverDies => (Hangs, tr)
          end
      end
  end.

(** [process_batch]. [sched] stands for the timing of the workers and
    is read in parallel mode only.  Leaving a [with] block, normally or
    by an exception, runs its exit ([ProgressExit], [PoolExit]); a loop
    that waits for ever leaves no block. *)
Definition process_batch (self : t) (sched : list nat) (tasks : list Task)
           (worker_func : Task -> result R) (description : string)
  : ending (list R) * list event :=
  match tasks with
  | [] => (Ends (Ok []), [])
  | _ :: _ =>
      let total := List.length tasks in
      if (num_workers self =? 1)%Z then
        let tr := [LogProgressStart description total;
                   ProgressEnter; AddTask description total] in
        match sequential_loop worker_func tasks [] tr with
        | (Ok results, tr') =>
            (Ends (Ok results),
             tr' ++ [ProgressExit; LogProgressComplete description total])
        | (Raise e, tr') => (Ends (Raise e), tr' ++ [ProgressExit])
        end
      else if (num_workers self <? 1)%Z then
        (Ends (Raise (PyError "ValueError" "Number of processes must be at least 1")),
         [LogProgressStart description total])
      else
        let tr := [LogProgressStart description total;
                   PoolEnter (num_workers self);
                   ProgressEnter; AddTask description total] in
        match parallel_loop worker_func
                (imap_unordered (num_workers self) sched tasks) [] tr false with
        | (Ends (Ok results), tr') =>
            (Ends (Ok results),
             tr' ++ [ProgressExit; PoolExit; LogProgressComplete description total])
        | (Ends (Raise e), tr') => (Ends (Raise e), tr' ++ [ProgressExit; PoolExit])
        | (Hangs, tr') => (Hangs, tr')
        end
  end.

(** The tasks whose outcome the loop got, in order: the tasks the
    sequential loop called the worker on, the tasks whose outcome the
    iterator of the pool delivered. *)
Fixpoint attempted (tr : list event) : list Task :=
  match tr with
  | [] => []
  | Call t :: r => t :: attempted r
  | Completion t :: r => t :: attempted r
  | _ :: r => attempted r
  end.

(** The number of progress advances. *)
Fixpoint advances (tr : list event) : nat :=
  match tr with
  | [] => 0
  | Advance :: r => S (advances r)
  | _ :: r => advances r
  end.

(** The tasks succeed, one by one, with these results. *)
Definition succeed_with (worker_func : Task -> result R) (tasks : list Task)
           (results : list R) : Prop :=
  Forall2 (fun t r => worker_func t = Ok r) tasks results.

(** The order in which the loop of [process_batch] meets the tasks:
    submission order with one worker, the order of [imap_unordered] with a
    pool. *)
Definition run_order (self : t) (sched : list nat) (tasks : list Task)
  : list Task :=
  if (num_workers self =? 1)%Z then tasks
  else imap_unordered (num_workers self) sched tasks.


End Executor.

Arguments LogProgressStart {Task} description total.
Arguments PoolEnter {Task} processes.
Arguments ProgressEnter {Task}.
Arguments AddTask {Task} description total.
Arguments Advance {Task}.
Arguments ProgressExit {Task}.
Arguments PoolExit {Task}.
Arguments LogProgressComplete {Task} description total.

End ParallelProcessor.

(* ================================================================= *)
(** ** The processors of the repository *)

(** The classes the package registers, with the outside world their
    [load_model] bodies depend on: whether the third-party packages can be
    imported and what their model constructors do. *)
Module Repo.

(** A loaded model, by the name of what was loaded. *)
Definition Model : Type := string.

Record Libs : Type := {
  tn_importable : bool;
  ZhNormalizer : result Model;
  funasr_importable : bool;
  AutoModel : result Model
}.

Definition base_mro : list string := ["BaseProcessor"; "ABC"; "object"].

(** [BaseAudioProcessor] and [BaseTextProcessor] leave [process_single]
    abstract. *)
Definition BaseAudioProcessor : PyClass Model Libs := {|
  cls_name := "BaseAudioProcessor";
  cls_mro := "BaseAudioProcessor" :: base_mro;
  cls_abstractmethods := ["process_single"];
  cls_load_model := fun libs =>
    (Raise (PyError "AttributeError" "load_model"), libs)
|}.

Definition BaseTextProcessor : PyClass Model Libs := {|
  cls_name := "BaseTextProcessor";
  cls_mro := "BaseTextProcessor" :: base_mro;
  cls_abstractmethods := ["process_single"];
  cls_load_model := fun libs =>
    (Raise (PyError "AttributeError" "load_model"), libs)
|}.

(** [@register_processor("audio_resampler")] *)
Definition AudioResampler : PyClass Model Libs := {|
  cls_name := "AudioResampler";
  cls_mro := "AudioResampler" :: "BaseAudioProcessor" :: base_mro;
  cls_abstractmethods := [];
  cls_load_model := fun libs =>
    (Raise (PyError "AttributeError" "load_model"), libs)
|}.

(** [@register_processor("text_normalizer")]
    [class TextNormalizer(ModelBackedProcessor, BaseTextProcessor)]:
    [load_model] raises [TextProcessingError] when the import fails,
    else returns what [ZhNormalizer(...)] gives. *)
Definition TextNormalizer : PyClass Model Libs := {|
  cls_name := "TextNormalizer";
  cls_mro := "TextNormalizer" :: "ModelBackedProcessor"
               :: "BaseTextProcessor" :: base_mro;
  cls_abstractmethods := [];
  cls_load_model := fun libs =>
    if tn_importable libs then (ZhNormalizer libs, libs)
    else (Raise (TextProcessingError EmptyString), libs)
|}.

(** [@register_processor("speech_vad_fsmn")]
    [class VAD_FSMN(ModelBackedProcessor)]: [load_model] raises
    [AudioProcessingError] when the import fails, else returns what
    [AutoModel(...)] gives; an exception of [AutoModel] is not caught. *)
Definition VAD_FSMN : PyClass Model Libs := {|
  cls_name := "VAD_FSMN";
  cls_mro := "VAD_FSMN" :: "ModelBackedProcessor" :: base_mro;
  cls_abstractmethods := [];
  cls_load_model := fun libs =>
    if funasr_importable libs then (AutoModel libs, libs)
    else (Raise (AudioProcessingError EmptyString), libs)
|}.

(** The registry after the three registrations. *)
Definition registry : ProcessorRegistry Model Libs :=
  register
    (register
       (register new_registry "audio_resampler" (PClass AudioResampler))
       "text_normalizer" (PClass TextNormalizer))
    "speech_vad_fsmn" (PClass VAD_FSMN).

(** ... and with a value that is not a class under one more name. *)
Definition registry_with_stray : ProcessorRegistry Model Libs :=
  register registry "stray" (PObject "str").

(** Every package installed and every model loading. *)
Definition libs_ok : Libs := {|
  tn_importable := true;
  ZhNormalizer := Ok "ZhNormalizer";
  funasr_importable := true;
  AutoModel := Ok "fsmn-vad"
|}.

(** [WeTextProcessing] is not installed. *)
Definition libs_without_tn : Libs := {|
  tn_importable := false;
  ZhNormalizer := Ok "ZhNormalizer";
  funasr_importable := true;
  AutoModel := Ok "fsmn-vad"
|}.

(** [funasr] is installed but [AutoModel(...)] fails at run time. *)
Definition libs_automodel_fails : Libs := {|
  tn_importable := true;
  ZhNormalizer := Ok "ZhNormalizer";
  funasr_importable := true;
  AutoModel := Raise (PyError "RuntimeError" "fsmn-vad: download failed")
|}.

Definition world (libs : Libs) : World Libs :=
  {| env := libs; load_calls := [] |}.

(** A worker over file names: fails on [B], else wraps the name. *)
Definition demo_worker (task : string) : result string :=
  if String.eqb task "B"
  then Raise (AudioProcessingError "cannot process B")
  else Ok ("result(" ++ task ++ ")")%string.

(** A worker that never fails. *)
Definition total_worker (task : string) : result string :=
  Ok ("result(" ++ task ++ ")")%string.


(** The exceptions that are no [Exception]. *)
Definition outside_Exception (e : exn) : bool :=
  match e with
  | PyError cls _ =>
      String.eqb cls "SystemExit" || String.eqb cls "KeyboardInterrupt"
      || String.eqb cls "GeneratorExit"
  | _ => false
  end.

(** How the exceptions of these workers cross: the errors of the package
    and the built-in exceptions pickle and are rebuilt from their
    arguments; the worker process does not catch those outside
    [Exception]. *)
Definition transfer (task : string) (e : exn) : crossing :=
  if outside_Exception e then TaskLost else Unchanged.

(** A configuration whose audio allow-list holds a format in mixed case,
    as after [config.audio_formats = [".wav", ".Aiff"]]. *)
Definition config_mixed_case : CreamConfig := {|
  audio_formats := [".wav"; ".Aiff"];
  text_formats := text_formats config;
  max_workers := 1;
  enable_progress_bars := true
|}.

Definition every_file_exists : FileSystem := fun _ => true.

End Repo.


(* ================================================================= *)
(** ** More of Python's strings and paths *)

Module StrOps.

(** [c.isspace()] on ASCII: tab to carriage return, the four separators
    28 to 31, and the space (blanks outside ASCII are not modelled). *)
Definition is_space (c : ascii) : bool :=
  let n := nat_of_ascii c in
  ((9 <=? n)%nat && (n <=? 13)%nat)
  || ((28 <=? n)%nat && (n <=? 31)%nat)
  || (n =? 32)%nat.

(** [s.lstrip()] *)
Fixpoint lstrip (s : string) : string :=
  match s with
  | EmptyString => EmptyString
  | String c r => if is_space c then lstrip r else s
  end.

(** [s.rstrip()] *)
Fixpoint rstrip (s : string) : string :=
  match s with
  | EmptyString => EmptyString
  | String c r =>
      match rstrip r with
      | EmptyString => if is_space c then EmptyString else String c EmptyString
      | r' => String c r'
      end
  end.

(** [s.strip()] *)
Definition strip (s : string) : string := rstrip (lstrip s).

(** [s.split(c, 1)] for an [s] that holds [c]: what is before the first
    [c] and what is after it. [None] when [c] is absent. *)
Fixpoint split_once (c : ascii) (s : string) : option (string * string) :=
  match s with
  | EmptyString => None
  | String a r =>
      if Ascii.eqb a c then Some (EmptyString, r)
      else match split_once c r with
           | Some (k, v) => Some (String a k, v)
           | None => None
           end
  end.

(** [not s] for a [str]. *)
Definition is_empty (s : string) : bool :=
  match s with
  | EmptyString => true
  | String _ _ => false
  end.

(** [str(n)] for an [int]. *)
Definition str_of_int (n : Z) : string :=
  DecimalString.NilZero.string_of_int (Z.to_int n).

Fixpoint ends_with_char (c : ascii) (s : string) : bool :=
  match s with
  | EmptyString => false
  | String a EmptyString => Ascii.eqb a c
  | String _ r => ends_with_char c r
  end.

(** [d / name] for a [name] of one component, as [str]: joining nothing
    or [.] gives [d], joining to [.] gives [name], and a separator is
    put unless [d] ends with one. *)
Definition joinpath (d : Path.t) (name : string) : Path.t :=
  if is_empty name || String.eqb name "." then d
  else if String.eqb d "." then name
  else if ends_with_char Path.slash d then (d ++ name)%string
  else (d ++ String Path.slash name)%string.

(** A string that is empty or starts with a character that is no blank. *)
Definition no_leading_space (s : string) : Prop :=
  match s with
  | EmptyString => True
  | String c _ => is_space c = false
  end.

End StrOps.

(* ================================================================= *)
(** ** Methods of [CreamConfig] *)

Module CreamConfigOps.

(** [validate_config]: a [max_workers] below one is set to one (the
    check of [log_file] only logs). *)
Definition validate_config (self : CreamConfig) : CreamConfig :=
  if (max_workers self <? 1)%Z then
    {| audio_formats := audio_formats self;
       text_formats := text_formats self;
       max_workers := 1;
       enable_progress_bars := enable_progress_bars self |}
  else self.

Definition is_audio_file (self : CreamConfig) (path : Path.t) : bool :=
  PyStr.str_in (PyStr.str_lower (Path.suffix path)) (audio_formats self).

Definition is_text_file (self : CreamConfig) (path : Path.t) : bool :=
  PyStr.str_in (PyStr.str_lower (Path.suffix path)) (text_formats self).

Definition set_parallel_config (self : CreamConfig) (num_workers : option Z)
           (progress_bars : option bool) : CreamConfig :=
  let self1 :=
    match num_workers with
    | Some n =>
        {| audio_formats := audio_formats self;
           text_formats := text_formats self;
           max_workers := Z.max 1 n;
           enable_progress_bars := enable_progress_bars self |}
    | None => self
    end in
  match progress_bars with
  | Some b =>
      {| audio_formats := audio_formats self1;
         text_formats := text_formats self1;
         max_workers := max_workers self1;
         enable_progress_bars := b |}
  | None => self1
  end.

End CreamConfigOps.

(* ================================================================= *)
(** ** Command-line parameters ([cream/cli/audio.py], [cream/cli/text.py]) *)

Module Cli.

Definition equals_sign : ascii := ascii_of_nat 61.

(** [typer.BadParameter(msg)] *)
Definition BadParameter (msg : string) : exn := PyError "BadParameter" msg.

(** The [for] loop of [_parse_params], started with [params]. *)
Fixpoint parse_loop (param_entries : list string) (params : Dict.t string)
  : result (Dict.t string) :=
  match param_entries with
  | [] => Ok params
  | entry :: rest =>
      if negb (PyStr.contains_char equals_sign entry) then
        Raise (BadParameter "Use --param key=value to pass processor arguments")
      else
        match StrOps.split_once equals_sign entry with
        | None =>
            Raise (PyError "ValueError"
                     "not enough values to unpack (expected 2, got 1)")
        | Some (key, value) =>
            let key := StrOps.strip key in
            if StrOps.is_empty key then
              Raise (BadParameter "Parameter key cannot be empty")
            else parse_loop rest (Dict.set key (StrOps.strip value) params)
        end
  end.

Definition _parse_params (param_entries : list string) : result (Dict.t string) :=
  parse_loop param_entries (Dict.empty string).

(** An entry [_parse_params] accepts: it holds an equals sign and what is
    before the first one is not blank. *)
Definition entry_ok (entry : string) : bool :=
  match StrOps.split_once equals_sign entry with
  | Some (key, _) => negb (StrOps.is_empty (StrOps.strip key))
  | None => false
  end.

(** The key and the value [_parse_params] reads from an entry. *)
Definition entry_key (entry : string) : string :=
  match StrOps.split_once equals_sign entry with
  | Some (key, _) => StrOps.strip key
  | None => EmptyString
  end.

Definition entry_value (entry : string) : string :=
  match StrOps.split_once equals_sign entry with
  | Some (_, value) => StrOps.strip value
  | None => EmptyString
  end.

(** What one accepted entry does to the dictionary. *)
Definition parse_step (params : Dict.t string) (entry : string) : Dict.t string :=
  Dict.set (entry_key entry) (entry_value entry) params.

(** [key=value] as typed on the command line. *)
Definition format_entry (kv : string * string) : string :=
  (fst kv ++ String equals_sign (snd kv))%string.

(** A key that reads back as itself: not empty, no equals sign, no blank
    at either end. *)
Definition clean_key (k : string) : bool :=
  negb (StrOps.is_empty k)
  && negb (PyStr.contains_char equals_sign k)
  && String.eqb (StrOps.strip k) k.

Definition clean_value (v : string) : bool := String.eqb (StrOps.strip v) v.

End Cli.

(* ================================================================= *)
(** ** Batches of files ([BaseProcessor.process_batch]) *)

Section Batches.

Variable Model : Type.

(** The keyword arguments passed along, and what [process_single]
    returns. *)
Variable Kwargs : Type.
Variable R : Type.

(** [processor.process_single(input_path, output_path, **kwargs)], as the
    class of the processor implements it. *)
Variable process_single :
  Instance Model -> Path.t -> option Path.t -> Kwargs -> result R.

(** The tuple [(self, input_file, output_dir, dict(kwargs))]. *)
Definition batch_task : Type :=
  (Instance Model * Path.t * option Path.t * Kwargs)%type.

(** [output_dir / input_path.name if output_dir is not None else None] *)
Definition output_path_for (output_dir : option Path.t) (input_path : Path.t)
  : option Path.t :=
  match output_dir with
  | Some d => Some (StrOps.joinpath d (Path.name input_path))
  | None => None
  end.

Definition _process_single_task (args : batch_task) : result R :=
  let '(processor, input_path, output_dir, extra_kwargs) := args in
  let output_path := output_path_for output_dir input_path in
  process_single processor input_path output_path extra_kwargs.

(** [num_workers or max_workers]: [None] and [0] are falsy. *)
Definition workers_or (num_workers : option Z) (max_workers : Z) : Z :=
  match num_workers with
  | None => max_workers
  | Some n => if (n =? 0)%Z then max_workers else n
  end.

(** How the exception of a task crosses from a worker process of a pool
    to the caller. *)
Variable transfer : batch_task -> exn -> crossing.

(** What a [process_batch] method of a processor gives: how the call ends
    and what the executor did. *)
Definition batch_run : Type :=
  (ending (list R) * list (ParallelProcessor.event batch_task))%type.

(** [BaseProcessor.process_batch]; [cfg] is the global [config] and
    [sched] the timing of a pool. *)
Definition BaseProcessor_process_batch (cfg : CreamConfig) (sched : list nat)
           (self : Instance Model) (input_files : list Path.t)
           (output_dir : option Path.t) (num_workers : option Z)
           (kwargs : Kwargs) : batch_run :=
  let tasks := map (fun input_file => (self, input_file, output_dir, kwargs))
                   input_files in
  let processor :=
    {| ParallelProcessor.num_workers := workers_or num_workers (max_workers cfg) |} in
  let description := ("Processing with " ++ inst_class self)%string in
  ParallelProcessor.process_batch transfer processor sched tasks
                                  _process_single_task description.

(** A [process_batch] method, as a class of processors defines it. *)
Definition batch_method : Type :=
  CreamConfig -> list nat -> Instance Model -> list Path.t -> option Path.t
  -> option Z -> Kwargs -> batch_run.

(** The [process_batch] a class of processors defines itself, by the
    instance: [None] for a class that inherits the method of
    [BaseProcessor], as the classes of the package do but
    [AudioMetaViewer], which runs [uplot] on the results of the inherited
    method and raises when that fails. *)
Variable own_process_batch : Instance Model -> option batch_method.

(** [processor.process_batch]: the method the class of the instance
    resolves to. *)
Definition processor_process_batch (self : Instance Model) : batch_method :=
  match own_process_batch self with
  | Some own => own
  | None => BaseProcessor_process_batch
  end.

(** *** [AudioProcessorInterface] and [TextProcessorInterface] *)

Variable Env : Type.

(** An interface object: [self.method] and [self.processor]. *)
Record ProcessorInterface : Type := {
  method : string;
  processor : Instance Model
}.

(** [AudioProcessorInterface(method)] *)
Definition AudioProcessorInterface_init (registry : ProcessorRegistry Model Env)
           (method : string) : M Env ProcessorInterface :=
  bind (create registry method)
       (fun p => ret {| method := method; processor := p |}).

(** [TextProcessorInterface(method)] *)
Definition TextProcessorInterface_init (registry : ProcessorRegistry Model Env)
           (method : string) : M Env ProcessorInterface :=
  bind (create registry method)
       (fun p => ret {| method := method; processor := p |}).

(** [list_all_methods] of either interface. *)
Definition list_all_methods (registry : ProcessorRegistry Model Env)
  : list string :=
  list_processors registry.

(** [process_file] of either interface. *)
Definition process_file (self : ProcessorInterface) (input_path : Path.t)
           (output_path : option Path.t) (kwargs : Kwargs) : result R :=
  process_single (processor self) input_path output_path kwargs.

(** [process_batch] of either interface:
    [self.processor.process_batch(input_files, output_dir, num_workers, ...)];
    the caller's omitted [num_workers] is the default [1]. *)
Definition interface_process_batch (cfg : CreamConfig) (sched : list nat)
           (self : ProcessorInterface) (input_files : list Path.t)
           (output_dir : option Path.t) (num_workers : option Z)
           (kwargs : Kwargs) : batch_run :=
  let n := match num_workers with Some n => n | None => 1%Z end in
  processor_process_batch (processor self) cfg sched (processor self)
                          input_files output_dir (Some n) kwargs.

End Batches.

(* ================================================================= *)
(** ** Examples for the command line *)

Module CliExamples.

Definition entries : list string := [" rate = 16000 "; "mode=a=b"; "rate=8000"].

Definition pairs : list (string * string) :=
  [("target_sr", "16000"); ("normalization_type", "peak")].

End CliExamples.

(* ================================================================= *)
(** ** Reading a trace of the executor *)

Module Trace.
Section Trace.

Variable Task : Type.

Definition is_progress_enter (ev : ParallelProcessor.event Task) : bool :=
  match ev with ParallelProcessor.ProgressEnter => true | _ => false end.

Definition is_progress_exit (ev : ParallelProcessor.event Task) : bool :=
  match ev with ParallelProcessor.ProgressExit => true | _ => false end.

Definition is_pool_enter (ev : ParallelProcessor.event Task) : bool :=
  match ev with ParallelProcessor.PoolEnter _ => true | _ => false end.

Definition is_pool_exit (ev : ParallelProcessor.event Task) : bool :=
  match ev with ParallelProcessor.PoolExit => true | _ => false end.

Definition is_log_complete (ev : ParallelProcessor.event Task) : bool :=
  match ev with ParallelProcessor.LogProgressComplete _ _ => true | _ => false end.

(** The events that are not of the loop body. *)
Definition outside_loop (p : ParallelProcessor.event Task -> bool) : Prop :=
  (forall t, p (ParallelProcessor.Call t) = false)
  /\ (forall t, p (ParallelProcessor.Completion t) = false)
  /\ p ParallelProcessor.Advance = false.

Definition count (p : ParallelProcessor.event Task -> bool)
           (tr : list (ParallelProcessor.event Task)) : nat :=
  List.length (filter p tr).

Definition is_nil (l : list Task) : bool :=
  match l with [] => true | _ :: _ => false end.

End Trace.
End Trace.

(* ================================================================= *)
(** ** Examples for batches of files *)

Module BatchExamples.

(** A processor that validates its input as an audio processor does and
    returns the path it would write to. *)
Definition process_single (self : Instance Repo.Model) (input_path : Path.t)
           (output_path : option Path.t) (kwargs : Dict.t string)
  : result Path.t :=
  match BaseAudioProcessor.validate_input config Repo.every_file_exists input_path with
  | Raise e => Raise e
  | Ok _ =>
      match output_path with
      | Some o => Ok o
      | None => Ok input_path
      end
  end.

Definition resampler : Instance Repo.Model :=
  {| inst_class := "AudioResampler"; inst_model := None |}.

(** The errors of this processor are [ValidationError]s, which pickle. *)
Definition transfer
           (task : Instance Repo.Model * Path.t * option Path.t * Dict.t string)
           (e : exn) : crossing :=
  Unchanged.

(** [AudioResampler] inherits [process_batch]. *)
Definition own_process_batch (self : Instance Repo.Model)
  : option (batch_method Repo.Model (Dict.t string) Path.t) :=
  None.

Definition files : list Path.t := ["in/a.wav"; "in/b.FLAC"].

End BatchExamples.

(* ================================================================= *)
(** ** Environment variables ([set_env] of [cream/core/config.py]) *)

Module OsEnviron.

(** [os.environ], a mapping from names to values. *)
Definition t : Type := Dict.t string.

Definition nul : ascii := ascii_of_nat 0.

Definition legal_name (k : string) : bool :=
  negb (PyStr.contains_char nul k)
  && negb (StrOps.is_empty k)
  && negb (PyStr.contains_char Cli.equals_sign k).

Definition legal_value (v : string) : bool :=
  negb (PyStr.contains_char nul v).

(** [os.environ[k] = v] on POSIX: a null byte in the name or the value
    and an equals sign in the name are refused with [ValueError], an empty
    name by [setenv] with [OSError]. *)
Definition setitem (k v : string) (env : t) : result t :=
  if PyStr.contains_char nul k || PyStr.contains_char nul v then
    Raise (PyError "ValueError" "embedded null byte")
  else if PyStr.contains_char Cli.equals_sign k then
    Raise (PyError "ValueError" "illegal environment variable name")
  else if StrOps.is_empty k then
    Raise (PyError "OSError" "[Errno 22] Invalid argument")
  else Ok (Dict.set k v env).

(** [os.environ.pop(k, None)] *)
Fixpoint pop (k : string) (env : t) : t :=
  match env with
  | [] => []
  | (k', v) :: r => if String.eqb k' k then r else (k', v) :: pop k r
  end.

End OsEnviron.

Module SetEnv.

(** A value given to [set_env]: a [str], a [Path] or an [int] (a [float]
    is not modelled). *)
Inductive value : Type :=
| VStr (s : string)
| VPath (p : Path.t)
| VInt (n : Z).

(** [str(v) if isinstance(v, (Path, int, float)) else v] *)
Definition to_env_string (v : value) : string :=
  match v with
  | VStr s => s
  | VPath p => p
  | VInt n => StrOps.str_of_int n
  end.

Definition environ_str (environ : Dict.t value) : Dict.t string :=
  map (fun kv => (fst kv, to_env_string (snd kv))) environ.

(** The first loop: remember what each name had, or that it was absent,
    then set it. *)
Fixpoint enter (items : list (string * string)) (old_values : Dict.t string)
         (to_delete : list string) (env : OsEnviron.t)
  : result (Dict.t string * list string) * OsEnviron.t :=
  match items with
  | [] => (Ok (old_values, to_delete), env)
  | (k, v) :: rest =>
      let '(old_values', to_delete') :=
        if Dict.contains k env then
          match Dict.get k env with
          | Some old => (Dict.set k old old_values, to_delete)
          | None => (old_values, to_delete)
          end
        else (old_values, to_delete ++ [k]) in
      match OsEnviron.setitem k v env with
      | Ok env' => enter rest old_values' to_delete' env'
      | Raise e => (Raise e, env)
      end
  end.

(** [for k, v in old_values.items(): os.environ[k] = v] *)
Fixpoint restore_old (items : list (string * string)) (env : OsEnviron.t)
  : result unit * OsEnviron.t :=
  match items with
  | [] => (Ok tt, env)
  | (k, v) :: rest =>
      match OsEnviron.setitem k v env with
      | Ok env' => restore_old rest env'
      | Raise e => (Raise e, env)
      end
  end.

(** [for k in to_delete: os.environ.pop(k, None)] *)
Fixpoint delete_new (to_delete : list string) (env : OsEnviron.t) : OsEnviron.t :=
  match to_delete with
  | [] => env
  | k :: rest => delete_new rest (OsEnviron.pop k env)
  end.

(** [with set_env(...): body].  The body of the [with] block runs
    on the environment after the first loop; the [finally] clause runs
    whether the body returns or raises, and then the outcome of the body
    is the outcome of the block. *)
Definition set_env (A : Type) (environ : Dict.t value)
           (body : OsEnviron.t -> result A * OsEnviron.t) (env : OsEnviron.t)
  : result A * OsEnviron.t :=
  match enter (Dict.items (environ_str environ)) (Dict.empty string) [] env with
  | (Raise e, env1) => (Raise e, env1)
  | (Ok (old_values, to_delete), env1) =>
      let (r, env2) := body env1 in
      match restore_old (Dict.items old_values) env2 with
      | (Raise e, env3) => (Raise e, env3)
      | (Ok _, env3) => (r, delete_new to_delete env3)
      end
  end.

(** The environment with every item set, one after the other. *)
Definition with_items (items : list (string * string)) (env : OsEnviron.t)
  : OsEnviron.t :=
  fold_left (fun e kv => Dict.set (fst kv) (snd kv) e) items env.

(** The environment the body of the block starts with. *)
Definition entered (environ : Dict.t value) (env : OsEnviron.t) : OsEnviron.t :=
  with_items (environ_str environ) env.

(** Names and values [os.environ] takes. *)
Definition legal_items (items : list (string * string)) : Prop :=
  Forall (fun kv => OsEnviron.legal_name (fst kv) = true
                    /\ OsEnviron.legal_value (snd kv) = true) items.

Definition legal_values (env : OsEnviron.t) : Prop :=
  forall k v, Dict.get k env = Some v -> OsEnviron.legal_value v = true.

End SetEnv.

Module SetEnvExamples.

Definition environ : Dict.t SetEnv.value :=
  [("MODELSCOPE_CACHE", SetEnv.VPath "/home/u/.cream/models/ModelScope");
   ("OMP_NUM_THREADS", SetEnv.VInt 4)].

Definition os_environ : OsEnviron.t :=
  [("HOME", "/home/u"); ("OMP_NUM_THREADS", "8")].

(** A body that changes one of the variables, sets another and fails. *)
Definition body (env : OsEnviron.t) : result unit * OsEnviron.t :=
  (Raise (AudioProcessingError "model download failed"),
   Dict.set "TMP" "/tmp" (Dict.set "OMP_NUM_THREADS" "1" env)).

End SetEnvExamples.

(* ================================================================= *)
(** ** Counting words ([TextMetaViewer.word_count] of [cream/text/analysis.py]) *)

Module TextMetaViewer.

(** A text as the list of its code points. *)
Definition text : Type := list Z.

(** The class [[\u4e00-\u9fff]]. *)
Definition is_cjk (c : Z) : bool := (19968 <=? c)%Z && (c <=? 40959)%Z.

(** The class [[A-Za-z0-9]]. *)
Definition is_alnum (c : Z) : bool :=
  ((65 <=? c)%Z && (c <=? 90)%Z)
  || ((97 <=? c)%Z && (c <=? 122)%Z)
  || ((48 <=? c)%Z && (c <=? 57)%Z).

(** The match in progress, if any, is a match. *)
Definition flush (cur : text) : list text :=
  match cur with
  | [] => []
  | _ :: _ => [cur]
  end.

(** [re.findall] of the pattern, scanning from left to right with [cur]
    the run of letters and digits matched so far: a run is extended as far
    as it goes, an ideograph is a match of its own, any other character
    is skipped. *)
Fixpoint scan (cur : text) (t : text) : list text :=
  match t with
  | [] => flush cur
  | c :: r =>
      if is_cjk c then flush cur ++ [c] :: scan [] r
      else if is_alnum c then scan (cur ++ [c]) r
      else flush cur ++ scan [] r
  end.

Definition findall (t : text) : list text := scan [] t.

(** [word_count(text)]: [len(tokens)] *)
Definition word_count (t : text) : nat := List.length (findall t).

(** What a match of the pattern looks like. *)
Definition is_token (tok : text) : Prop :=
  (exists c, tok = [c] /\ is_cjk c = true)
  \/ (tok <> [] /\ Forall (fun c => is_alnum c = true) tok).

(** A character the pattern matches nowhere. *)
Definition is_separator (c : Z) : bool := negb (is_cjk c) && negb (is_alnum c).

End TextMetaViewer.

(* ================================================================= *)
(** * Properties *)

(** ** Strings, sets and sorting *)

Lemma str_in_iff (x : string) (l : list string) :
  PyStr.str_in x l = true <-> In x l.
Proof.
  unfold PyStr.str_in. rewrite existsb_exists. split.
  - intros [y [Hy He]]. apply String.eqb_eq in He. now subst.
  - intros H. exists x. split; [assumption | apply String.eqb_refl].
Qed.

Lemma str_in_py_set (x : string) (l : list string) :
  PyStr.str_in x (PyStr.py_set l) = PyStr.str_in x l.
Proof.
  apply eq_true_iff_eq. rewrite !str_in_iff. unfold PyStr.py_set.
  apply nodup_In.
Qed.

Lemma insert_sorted_perm (x : string) (l : list string) :
  Permutation (PyStr.insert_sorted x l) (x :: l).
Proof.
  induction l as [|y r IH]; simpl.
  - reflexivity.
  - destruct (String.leb x y).
    + reflexivity.
    + rewrite IH. apply perm_swap.
Qed.

Lemma sorted_perm (l : list string) : Permutation (PyStr.sorted l) l.
Proof.
  induction l as [|x r IH]; simpl.
  - constructor.
  - rewrite insert_sorted_perm. now constructor.
Qed.

Lemma insert_sorted_hd (a x : string) (l : list string) :
  PyStr.str_le a x -> HdRel PyStr.str_le a l ->
  HdRel PyStr.str_le a (PyStr.insert_sorted x l).
Proof.
  intros Hax Hl. destruct l as [|y r]; simpl.
  - now constructor.
  - destruct (String.leb x y).
    + now constructor.
    + inversion Hl; subst. now constructor.
Qed.

Lemma insert_sorted_Sorted (x : string) (l : list string) :
  Sorted PyStr.str_le l -> Sorted PyStr.str_le (PyStr.insert_sorted x l).
Proof.
  induction l as [|y r IH]; intros Hs; simpl.
  - repeat constructor.
  - destruct (String.leb x y) eqn:Hxy.
    + constructor; [assumption | now constructor].
    + inversion Hs; subst. constructor.
      * now apply IH.
      * apply insert_sorted_hd; [|assumption].
        destruct (String.leb_total x y) as [H|H]; [congruence | exact H].
Qed.

Lemma sorted_Sorted (l : list string) : Sorted PyStr.str_le (PyStr.sorted l).
Proof.
  induction l as [|x r IH]; simpl.
  - constructor.
  - now apply insert_sorted_Sorted.
Qed.

(** ** Dictionaries *)

Section DictFacts.
Variable V : Type.
Implicit Types (d : Dict.t V) (k : string) (v : V).

Lemma contains_keys k d : Dict.contains k d = true <-> In k (Dict.keys d).
Proof.
  induction d as [|[k' v'] r IH]; simpl.
  - split; [discriminate | tauto].
  - rewrite orb_true_iff, IH, String.eqb_eq. tauto.
Qed.

Lemma contains_false_get k d : Dict.contains k d = false -> Dict.get k d = None.
Proof.
  induction d as [|[k' v'] r IH]; simpl; [reflexivity|].
  intros H. apply orb_false_iff in H. destruct H as [H1 H2].
  rewrite H1. now apply IH.
Qed.

Lemma get_some_contains k d v : Dict.get k d = Some v -> Dict.contains k d = true.
Proof.
  induction d as [|[k' v'] r IH]; simpl; [discriminate|].
  destruct (String.eqb k' k); simpl; [reflexivity | exact IH].
Qed.

Lemma get_set_same k v d : Dict.get k (Dict.set k v d) = Some v.
Proof.
  induction d as [|[k' v'] r IH]; simpl.
  - now rewrite String.eqb_refl.
  - destruct (String.eqb k' k) eqn:E; simpl; rewrite E; [reflexivity | exact IH].
Qed.

Lemma get_set_other k k0 v d :
  k0 <> k -> Dict.get k0 (Dict.set k v d) = Dict.get k0 d.
Proof.
  intros Hne. induction d as [|[k' v'] r IH]; simpl.
  - destruct (String.eqb k k0) eqn:E; [apply String.eqb_eq in E; congruence | reflexivity].
  - destruct (String.eqb k' k) eqn:E; simpl.
    + apply String.eqb_eq in E. subst k'.
      destruct (String.eqb k k0) eqn:E0; [apply String.eqb_eq in E0; congruence | reflexivity].
    + now rewrite IH.
Qed.

Lemma keys_set k v d :
  Dict.keys (Dict.set k v d) =
  if Dict.contains k d then Dict.keys d else Dict.keys d ++ [k].
Proof.
  induction d as [|[k' v'] r IH]; simpl; [reflexivity|].
  destruct (String.eqb k' k) eqn:E; simpl; [reflexivity|].
  unfold Dict.keys in *. rewrite IH.
  now destruct (Dict.contains k r).
Qed.

Lemma set_wf k v d : Dict.wf d -> Dict.wf (Dict.set k v d).
Proof.
  unfold Dict.wf. intros H. rewrite keys_set.
  destruct (Dict.contains k d) eqn:E; [assumption|].
  apply NoDup_app; [assumption | repeat constructor; simpl; tauto |].
  intros x Hx [Hk|[]]. subst x.
  apply contains_keys in Hx. congruence.
Qed.

Lemma wf_in_get k v d : Dict.wf d -> In (k, v) d -> Dict.get k d = Some v.
Proof.
  unfold Dict.wf. induction d as [|[k' v'] r IH]; simpl; [tauto|].
  intros Hnd [Heq|Hin].
  - inversion Heq; subst. now rewrite String.eqb_refl.
  - inversion Hnd as [|? ? Hnotin Hnd']; subst.
    destruct (String.eqb k' k) eqn:E.
    + apply String.eqb_eq in E. subst k'. exfalso. apply Hnotin.
      change (In (fst (k, v)) (map fst r)). now apply in_map.
    + now apply IH.
Qed.

End DictFacts.

(** ** The registry *)

Section RegistryFacts.
Variables Model Env : Type.
Implicit Types (reg : ProcessorRegistry Model Env) (o base : pyobj Model Env).

Lemma new_registry_wf : Dict.wf (_processors (@new_registry Model Env)).
Proof. constructor. Qed.

Lemma register_wf reg name o :
  Dict.wf (_processors reg) -> Dict.wf (_processors (register reg name o)).
Proof. intros H. simpl. now apply set_wf. Qed.

Lemma by_base_fold base (items : list (string * pyobj Model Env)) :
  forall acc,
    fold_left (by_base_step base) items acc =
    acc ++ map fst (filter (fun it => holds base (snd it)) items).
Proof.
  induction items as [|[name cls] r IH]; intros acc; simpl.
  - now rewrite app_nil_r.
  - rewrite IH. unfold holds. simpl.
    destruct (issubclass cls base) as [[|]|e]; simpl.
    + now rewrite <- app_assoc.
    + reflexivity.
    + reflexivity.
Qed.

Lemma map_fst_filter (A B : Type) (P : A * B -> bool) (Q : A -> bool)
      (l : list (A * B)) :
  (forall it, In it l -> P it = Q (fst it)) ->
  map fst (filter P l) = filter Q (map fst l).
Proof.
  induction l as [|it r IH]; intros H; simpl; [reflexivity|].
  rewrite <- (H it (or_introl eq_refl)).
  destruct (P it); simpl; rewrite IH; auto; intros; apply H; now right.
Qed.

Lemma count_occ_keys_set name o (d : Dict.t (pyobj Model Env)) :
  Dict.wf d -> count_occ string_dec (Dict.keys (Dict.set name o d)) name = 1.
Proof.
  intros Hwf.
  assert (Hin : In name (Dict.keys (Dict.set name o d))).
  { apply contains_keys. eapply get_some_contains. apply get_set_same. }
  assert (Hnd : NoDup (Dict.keys (Dict.set name o d))) by now apply set_wf.
  rewrite (NoDup_count_occ string_dec) in Hnd. specialize (Hnd name).
  apply (count_occ_In string_dec) in Hin. lia.
Qed.

End RegistryFacts.

(** C9. Registering never fails and keeps the names of a registry
    pairwise distinct.  After [register(name, cls)] the name has exactly
    one descriptor and it is [cls], every other name keeps its descriptor,
    and when the name was registered before, the list of names is the one
    before the call: the earlier descriptor is replaced, the latest
    registration wins. *)
Theorem C9_register_last_write_wins :
  forall (Model Env : Type) (reg : ProcessorRegistry Model Env)
         (name : string) (cls : pyobj Model Env),
    Dict.wf (_processors reg) ->
    let reg' := register reg name cls in
    Dict.wf (_processors reg')
    /\ count_occ string_dec (list_processors reg') name = 1
    /\ Dict.get name (_processors reg') = Some cls
    /\ (forall other, other <> name ->
          Dict.get other (_processors reg') = Dict.get other (_processors reg))
    /\ (Dict.contains name (_processors reg) = true ->
          list_processors reg' = list_processors reg)
    /\ (forall earlier,
          list_processors (register (register reg name earlier) name cls)
          = list_processors (register reg name earlier)
          /\ Dict.get name (_processors (register (register reg name earlier) name cls))
             = Some cls).
Proof.
  intros Model Env reg name cls Hwf reg'. subst reg'.
  unfold list_processors. simpl.
  split; [now apply set_wf|].
  split; [now apply count_occ_keys_set|].
  split; [apply get_set_same|].
  split; [intros other Hne; now apply get_set_other|].
  split.
  - intros Hc. now rewrite keys_set, Hc.
  - intros earlier. split; [|apply get_set_same].
    rewrite (keys_set name cls (Dict.set name earlier (_processors reg))).
    now rewrite (get_some_contains _ _ (get_set_same name earlier (_processors reg))).
Qed.

(** C9 at the registry of the repository: [text_normalizer] is registered
    again, with another class. *)
Lemma C9_register_last_write_wins_witness :
  let reg' := register Repo.registry "text_normalizer" (PClass Repo.VAD_FSMN) in
  Dict.wf (_processors Repo.registry)
  /\ list_processors reg' = ["audio_resampler"; "text_normalizer"; "speech_vad_fsmn"]
  /\ Dict.get "text_normalizer" (_processors reg') = Some (PClass Repo.VAD_FSMN).
Proof.
  assert (Hwf : Dict.wf (_processors Repo.registry)).
  { unfold Repo.registry. repeat apply register_wf. apply new_registry_wf. }
  pose proof (C9_register_last_write_wins Repo.registry "text_normalizer"
                (PClass Repo.VAD_FSMN) Hwf) as H.
  cbv zeta in H. destruct H as (_ & _ & Hget & _ & Hkeys & _).
  split; [exact Hwf|]. split.
  - rewrite (Hkeys eq_refl). reflexivity.
  - exact Hget.
Defined.

(** C7. [list_processors_by_base] returns, in the order of
    [list_processors], exactly the names whose registered type passes the
    [issubclass] test; a descriptor whose test raises is left out and the
    call itself never raises. *)
Theorem C7_list_by_base_is_filter :
  forall (Model Env : Type) (reg : ProcessorRegistry Model Env)
         (base_class : pyobj Model Env),
    Dict.wf (_processors reg) ->
    list_processors_by_base reg base_class
    = filter (satisfies reg base_class) (list_processors reg)
    /\ (forall name, check_raises reg base_class name = true ->
          ~ In name (list_processors_by_base reg base_class))
    /\ (forall name, In name (list_processors_by_base reg base_class) <->
          exists o, Dict.get name (_processors reg) = Some o
                    /\ issubclass o base_class = Ok true).
Proof.
  intros Model Env reg base Hwf.
  assert (Heq : list_processors_by_base reg base
                = filter (satisfies reg base) (list_processors reg)).
  { unfold list_processors_by_base, list_processors, Dict.items, Dict.keys.
    rewrite by_base_fold. simpl.
    apply map_fst_filter. intros [k v] Hin. simpl.
    unfold satisfies. rewrite (wf_in_get _ _ Hwf Hin). reflexivity. }
  split; [exact Heq|]. split.
  - intros name Hr Hin. rewrite Heq in Hin. apply filter_In in Hin.
    destruct Hin as [_ Hs]. unfold satisfies in Hs. unfold check_raises in Hr.
    destruct (Dict.get name (_processors reg)); [|discriminate].
    destruct (issubclass p base); simpl in *; discriminate.
  - intros name. rewrite Heq, filter_In. unfold satisfies, list_processors. split.
    + intros [_ Hs]. destruct (Dict.get name (_processors reg)) as [o|]; [|discriminate].
      exists o. split; [reflexivity|].
      destruct (issubclass o base) as [b|e]; [now subst | discriminate].
    + intros [o [Hg Hi]]. split.
      * apply contains_keys. now apply get_some_contains with (v := o).
      * now rewrite Hg, Hi.
Qed.

(** C7 at the registry of the repository with a stray non-class entry. *)
Lemma C7_list_by_base_is_filter_witness :
  Dict.wf (_processors Repo.registry_with_stray)
  /\ list_processors_by_base Repo.registry_with_stray (PClass Repo.BaseAudioProcessor)
     = ["audio_resampler"]
  /\ check_raises Repo.registry_with_stray (PClass Repo.BaseAudioProcessor) "stray" = true.
Proof.
  assert (Hwf : Dict.wf (_processors Repo.registry_with_stray)).
  { unfold Repo.registry_with_stray, Repo.registry.
    repeat apply register_wf. apply new_registry_wf. }
  split; [exact Hwf|]. split; [|reflexivity].
  rewrite (proj1 (C7_list_by_base_is_filter Repo.registry_with_stray
                    (PClass Repo.BaseAudioProcessor) Hwf)).
  reflexivity.
Defined.

(** ** Construction *)

Section ConstructionFacts.
Variables Model Env : Type.
Implicit Types (c : PyClass Model Env) (w : World Env).

(** Constructing a concrete model-backed class runs [load_model] once
    and fails or succeeds with it. *)
Lemma instantiate_model_backed c w :
  cls_abstractmethods c = [] ->
  is_model_backed c = true ->
  instantiate c w =
  (match fst (cls_load_model c (env w)) with
   | Ok m => Ok {| inst_class := cls_name c; inst_model := Some m |}
   | Raise e => Raise e
   end,
   {| env := snd (cls_load_model c (env w));
      load_calls := load_calls w ++ [cls_name c] |}).
Proof.
  intros Ha Hm. unfold instantiate. rewrite Ha, Hm.
  unfold ModelBackedProcessor_init, BaseProcessor_init, bind, ret, load_model.
  destruct (cls_load_model c (env w)) as [[m|e] e']; reflexivity.
Qed.

Lemma instantiate_many_log c n :
  cls_abstractmethods c = [] ->
  is_model_backed c = true ->
  forall w,
    load_calls (snd (instantiate_many c n w))
    = load_calls w ++ repeat (cls_name c) n
    /\ List.length (fst (instantiate_many c n w)) = n.
Proof.
  intros Ha Hm. induction n as [|n IH]; intros w; simpl.
  - now rewrite app_nil_r.
  - rewrite (instantiate_model_backed c w Ha Hm).
    match goal with
    | |- context [instantiate_many c n ?w1] =>
        specialize (IH w1); destruct (instantiate_many c n w1) as [rs w2]
    end.
    simpl in *. destruct IH as [IH1 IH2]. rewrite IH1, IH2.
    now rewrite <- app_assoc.
Qed.

End ConstructionFacts.

(** C4, as the code has it.  For a name registered with a class,
    [create] is the construction of that class: when the construction
    returns an instance, [create] returns this instance, which is of the
    registered class; when the construction raises, [create] raises the
    same error.  For a name that is not registered, [create] raises a
    [ValidationError] whose message holds the requested name and the list
    of the registered names, and nothing is constructed. *)
Theorem C4_create_registered_or_not_found :
  forall (Model Env : Type) (reg : ProcessorRegistry Model Env)
         (name : string) (w : World Env),
    (forall c, Dict.get name (_processors reg) = Some (PClass c) ->
       create reg name w = instantiate c w
       /\ (forall i w', instantiate c w = (Ok i, w') ->
             create reg name w = (Ok i, w') /\ inst_class i = cls_name c)
       /\ (forall e w', instantiate c w = (Raise e, w') ->
             create reg name w = (Raise e, w')))
    /\ (Dict.contains name (_processors reg) = false ->
          create reg name w
          = (Raise (ValidationError
                      ("Processor '" ++ name ++ "' not found. Available: "
                         ++ PyStr.py_repr_list (list_processors reg))%string),
             w)).
Proof.
  intros Model Env reg name w. split.
  - intros c Hget.
    assert (Hc : create reg name w = instantiate c w).
    { unfold create. rewrite (get_some_contains _ _ Hget), Hget. reflexivity. }
    split; [exact Hc|]. split.
    + intros i w' Hi. split; [congruence|].
      unfold instantiate in Hi.
      destruct (cls_abstractmethods c); [|discriminate].
      destruct (is_model_backed c).
      * unfold ModelBackedProcessor_init, BaseProcessor_init, bind, ret, load_model in Hi.
        destruct (cls_load_model c (env w)) as [[m|e] e']; inversion Hi; reflexivity.
      * unfold BaseProcessor_init, ret in Hi. inversion Hi; reflexivity.
    + intros e w' He. congruence.
  - intros Hc. unfold create. rewrite Hc. reflexivity.
Qed.

(** C4 at the registry of the repository: a registered name, and a name
    nobody registered. *)
Lemma C4_create_registered_or_not_found_witness :
  create Repo.registry "text_normalizer" (Repo.world Repo.libs_ok)
  = (Ok {| inst_class := "TextNormalizer"; inst_model := Some "ZhNormalizer" |},
     {| env := Repo.libs_ok; load_calls := ["TextNormalizer"] |})
  /\ create Repo.registry "text_normaliser" (Repo.world Repo.libs_ok)
     = (Raise (ValidationError
                 "Processor 'text_normaliser' not found. Available: ['audio_resampler', 'text_normalizer', 'speech_vad_fsmn']"),
        Repo.world Repo.libs_ok).
Proof.
  split.
  - destruct (C4_create_registered_or_not_found Repo.registry "text_normalizer"
                (Repo.world Repo.libs_ok)) as [H _].
    destruct (H Repo.TextNormalizer eq_refl) as (_ & Hok & _).
    exact (proj1 (Hok _ _ eq_refl)).
  - destruct (C4_create_registered_or_not_found Repo.registry "text_normaliser"
                (Repo.world Repo.libs_ok)) as [_ H].
    exact (H eq_refl).
Defined.

(** C4 as stated fails: [text_normalizer] is registered, yet where the
    [tn] package cannot be imported [create] returns no instance, it
    raises what [load_model] raised. *)
Lemma C4_counterexample_registered_create_raises :
  Dict.get "text_normalizer" (_processors Repo.registry)
  = Some (PClass Repo.TextNormalizer)
  /\ fst (create Repo.registry "text_normalizer" (Repo.world Repo.libs_without_tn))
     = Raise (TextProcessingError EmptyString)
  /\ ~ (exists i, fst (create Repo.registry "text_normalizer"
                         (Repo.world Repo.libs_without_tn)) = Ok i).
Proof.
  split; [reflexivity|]. split; [reflexivity|].
  intros [i Hi]. vm_compute in Hi. discriminate.
Qed.

(** C5, as the code has it.  When [load_model] raises during the
    construction of a model-backed class, the construction raises that
    same error, whatever its class, and hands no instance to the caller,
    directly or through [create]; an instance that a construction does
    return always holds the model its [load_model] call returned. *)
Theorem C5_load_model_failure_aborts_construction :
  forall (Model Env : Type) (c : PyClass Model Env) (w : World Env),
    cls_abstractmethods c = [] ->
    is_model_backed c = true ->
    (forall e env',
        cls_load_model c (env w) = (Raise e, env') ->
        fst (instantiate c w) = Raise e
        /\ (forall (reg : ProcessorRegistry Model Env) name,
              Dict.get name (_processors reg) = Some (PClass c) ->
              fst (create reg name w) = Raise e))
    /\ (forall i,
          fst (instantiate c w) = Ok i ->
          exists m, fst (cls_load_model c (env w)) = Ok m
                    /\ inst_model i = Some m).
Proof.
  intros Model Env c w Ha Hm. split.
  - intros e env' Hl.
    assert (Hi : fst (instantiate c w) = Raise e).
    { rewrite (instantiate_model_backed c w Ha Hm), Hl. reflexivity. }
    split; [exact Hi|].
    intros reg name Hget. unfold create.
    rewrite (get_some_contains _ _ Hget), Hget. exact Hi.
  - intros i Hi. rewrite (instantiate_model_backed c w Ha Hm) in Hi. simpl in Hi.
    destruct (fst (cls_load_model c (env w))) as [m|e]; [|discriminate].
    exists m. split; [reflexivity|]. inversion Hi. reflexivity.
Qed.

(** C5 at [TextNormalizer] without the [tn] package. *)
Lemma C5_load_model_failure_aborts_construction_witness :
  fst (instantiate Repo.TextNormalizer (Repo.world Repo.libs_without_tn))
  = Raise (TextProcessingError EmptyString)
  /\ fst (create Repo.registry "text_normalizer" (Repo.world Repo.libs_without_tn))
     = Raise (TextProcessingError EmptyString).
Proof.
  destruct (C5_load_model_failure_aborts_construction Repo.TextNormalizer
              (Repo.world Repo.libs_without_tn) eq_refl eq_refl) as [H _].
  destruct (H (TextProcessingError EmptyString) Repo.libs_without_tn eq_refl)
    as [H1 H2].
  split; [exact H1 | exact (H2 Repo.registry "text_normalizer" eq_refl)].
Defined.

(** C5 as stated fails in its last part: [VAD_FSMN.load_model] lets an
    exception of [AutoModel(...)] through, so the construction fails with
    an error that is no processing error, nor any [CreamError]. *)
Lemma C5_counterexample_error_not_processing_class :
  is_model_backed Repo.VAD_FSMN = true
  /\ fst (cls_load_model Repo.VAD_FSMN Repo.libs_automodel_fails)
     = Raise (PyError "RuntimeError" "fsmn-vad: download failed")
  /\ fst (instantiate Repo.VAD_FSMN (Repo.world Repo.libs_automodel_fails))
     = Raise (PyError "RuntimeError" "fsmn-vad: download failed")
  /\ is_processing_error (PyError "RuntimeError" "fsmn-vad: download failed") = false
  /\ is_cream_error (PyError "RuntimeError" "fsmn-vad: download failed") = false.
Proof. repeat split. Qed.

(** C6. [n] constructions of a model-backed class invoke [load_model]
    exactly [n] times, once per construction and whatever the earlier
    constructions did: each construction runs the [load_model] body on the
    environment it finds, nothing is kept from one instance to the next. *)
Theorem C6_one_load_model_call_per_instantiation :
  forall (Model Env : Type) (c : PyClass Model Env) (n : nat) (w : World Env),
    cls_abstractmethods c = [] ->
    is_model_backed c = true ->
    List.length (fst (instantiate_many c n w)) = n
    /\ load_calls (snd (instantiate_many c n w))
       = load_calls w ++ repeat (cls_name c) n
    /\ count_occ string_dec (load_calls (snd (instantiate_many c n w))) (cls_name c)
       = count_occ string_dec (load_calls w) (cls_name c) + n
    /\ (forall w0 : World Env,
          load_calls (snd (instantiate c w0)) = load_calls w0 ++ [cls_name c]
          /\ env (snd (instantiate c w0)) = snd (cls_load_model c (env w0))).
Proof.
  intros Model Env c n w Ha Hm.
  destruct (instantiate_many_log c n Ha Hm w) as [Hlog Hlen].
  split; [exact Hlen|]. split; [exact Hlog|]. split.
  - rewrite Hlog, count_occ_app. f_equal.
    clear. induction n as [|n IH]; simpl; [reflexivity|].
    destruct (string_dec (cls_name c) (cls_name c)); [now rewrite IH | congruence].
  - intros w0. rewrite (instantiate_model_backed c w0 Ha Hm). split; reflexivity.
Qed.

(** C6 at two constructions of [VAD_FSMN]. *)
Lemma C6_one_load_model_call_per_instantiation_witness :
  List.length (fst (instantiate_many Repo.VAD_FSMN 2 (Repo.world Repo.libs_ok))) = 2
  /\ load_calls (snd (instantiate_many Repo.VAD_FSMN 2 (Repo.world Repo.libs_ok)))
     = ["VAD_FSMN"; "VAD_FSMN"].
Proof.
  destruct (C6_one_load_model_call_per_instantiation Repo.VAD_FSMN 2
              (Repo.world Repo.libs_ok) eq_refl eq_refl) as (H1 & H2 & _).
  split; [exact H1 | exact H2].
Defined.

(** ** Paths *)

Lemma rfind_absent (c : ascii) (s : string) :
  PyStr.contains_char c s = false -> PyStr.rfind c s = (-1)%Z.
Proof.
  induction s as [|a r IH]; simpl; [reflexivity|].
  intros H. apply orb_false_iff in H. destruct H as [H1 H2].
  rewrite (IH H2), H1. reflexivity.
Qed.

Lemma rfind_last_sep (c : ascii) (a n : string) :
  PyStr.contains_char c n = false ->
  PyStr.rfind c (a ++ String c n)%string = Z.of_nat (String.length a).
Proof.
  intros Hn. induction a as [|x r IH].
  - simpl. rewrite (rfind_absent _ _ Hn), Ascii.eqb_refl. reflexivity.
  - cbn [String.append PyStr.rfind String.length]. rewrite IH.
    destruct (0 <=? Z.of_nat (String.length r))%Z eqn:E; [lia|].
    apply Z.leb_gt in E. lia.
Qed.

Lemma rfind_decompose (c : ascii) (s : string) :
  PyStr.contains_char c s = true ->
  exists a n, s = (a ++ String c n)%string /\ PyStr.contains_char c n = false.
Proof.
  induction s as [|x r IH]; simpl; [discriminate|].
  intros H. destruct (PyStr.contains_char c r) eqn:Hr.
  - destruct (IH eq_refl) as (a & n & -> & Hn).
    exists (String x a), n. split; [reflexivity | exact Hn].
  - rewrite orb_false_r in H. apply Ascii.eqb_eq in H. subst x.
    exists EmptyString, r. split; [reflexivity | exact Hr].
Qed.

Lemma substring_all (s : string) : substring 0 (String.length s) s = s.
Proof. induction s as [|x r IH]; simpl; [reflexivity | now rewrite IH]. Qed.

Lemma substring_skip (a b : string) (m : nat) :
  substring (String.length a) m (a ++ b)%string = substring 0 m b.
Proof. induction a as [|x r IH]; simpl; [reflexivity | exact IH]. Qed.

Lemma length_append (a b : string) :
  String.length (a ++ b)%string = String.length a + String.length b.
Proof. induction a as [|x r IH]; simpl; [reflexivity | now rewrite IH]. Qed.

Lemma append_assoc (a b c : string) : ((a ++ b) ++ c = a ++ (b ++ c))%string.
Proof. induction a as [|x r IH]; simpl; [reflexivity | now rewrite IH]. Qed.

Lemma slice_after_sep (c : ascii) (a n : string) :
  PyStr.slice_from (Z.of_nat (String.length a) + 1) (a ++ String c n)%string = n.
Proof.
  unfold PyStr.slice_from.
  replace (Z.to_nat (Z.of_nat (String.length a) + 1))
    with (String.length (a ++ String c EmptyString)%string)
    by (rewrite length_append; simpl; lia).
  replace (a ++ String c n)%string
    with ((a ++ String c EmptyString) ++ n)%string
    by (now rewrite append_assoc).
  rewrite substring_skip, !length_append.
  replace (String.length a + String.length (String c EmptyString)
           + String.length n
           - (String.length a + String.length (String c EmptyString)))
    with (String.length n) by lia.
  apply substring_all.
Qed.

Lemma name_after_slash (a n : string) :
  PyStr.contains_char Path.slash n = false ->
  Path.name (a ++ String Path.slash n)%string = n.
Proof.
  intros Hn. unfold Path.name. rewrite (rfind_last_sep _ a _ Hn).
  destruct (0 <=? Z.of_nat (String.length a))%Z eqn:E.
  - apply slice_after_sep.
  - apply Z.leb_gt in E. lia.
Qed.

Lemma name_without_slash (n : string) :
  PyStr.contains_char Path.slash n = false -> Path.name n = n.
Proof. intros Hn. unfold Path.name. now rewrite (rfind_absent _ _ Hn). Qed.

Lemma slice_at (a b : string) :
  PyStr.slice_from (Z.of_nat (String.length a)) (a ++ b)%string = b.
Proof.
  unfold PyStr.slice_from. rewrite Nat2Z.id, substring_skip, length_append.
  replace (String.length a + String.length b - String.length a)
    with (String.length b) by lia.
  apply substring_all.
Qed.

Lemma contains_char_app (c : ascii) (a b : string) :
  PyStr.contains_char c (a ++ b)%string
  = PyStr.contains_char c a || PyStr.contains_char c b.
Proof.
  induction a as [|x r IH]; simpl; [reflexivity|].
  now rewrite IH, orb_assoc.
Qed.

(** The final component of a file put in a directory. *)
Lemma name_in_dir (dir : option string) (n : string) :
  PyStr.contains_char Path.slash n = false ->
  Path.name (Path.in_dir dir n) = n.
Proof.
  intros Hn. destruct dir as [d|]; simpl.
  - now apply name_after_slash.
  - now apply name_without_slash.
Qed.

(** The extension of the file [stem.e]. *)
Lemma suffix_in_dir (dir : option string) (stem e : string) :
  stem <> EmptyString ->
  PyStr.contains_char Path.slash stem = false ->
  e <> EmptyString ->
  PyStr.contains_char Path.dot e = false ->
  PyStr.contains_char Path.slash e = false ->
  Path.suffix (Path.in_dir dir (stem ++ String Path.dot e)) = String Path.dot e.
Proof.
  intros Hs Hss He Hed Hes. unfold Path.suffix.
  rewrite name_in_dir.
  2:{ rewrite contains_char_app, Hss. simpl. now rewrite Hes. }
  cbv zeta. rewrite (rfind_last_sep _ stem _ Hed), length_append.
  assert (H1 : (0 <? Z.of_nat (String.length stem))%Z = true).
  { apply Z.ltb_lt. destruct stem; [congruence | simpl; lia]. }
  assert (H2 : (Z.of_nat (String.length stem)
                <? Z.of_nat (String.length stem
                             + String.length (String Path.dot e)) - 1)%Z = true).
  { apply Z.ltb_lt. destruct e; [congruence | simpl; lia]. }
  rewrite H1, H2. apply slice_at.
Qed.

(** ** Input validation *)

Lemma capability_validate_input_eq (cap : capability) (cfg : CreamConfig)
      (fs : FileSystem) (p : Path.t) :
  fs p = true ->
  capability_validate_input cap cfg fs p =
  if PyStr.str_in (PyStr.str_lower (Path.suffix p)) (allow_list cap cfg)
  then Ok tt
  else Raise (ValidationError (format_error_message cap cfg p)).
Proof.
  intros Hfs.
  destruct cap; simpl;
    [unfold BaseAudioProcessor.validate_input, BaseAudioProcessor.SUPPORTED_FORMATS
    |unfold BaseTextProcessor.validate_input, BaseTextProcessor.SUPPORTED_FORMATS];
    unfold BaseProcessor.validate_input; rewrite Hfs; simpl;
    rewrite str_in_py_set;
    destruct (PyStr.str_in _ _); reflexivity.
Qed.

(** C8, as the code has it.  For an existing input whose lower-cased
    extension is not in the allow-list of the capability, [validate_input]
    raises a [ValidationError]; its message shows the extension as given
    and then the supported formats, each once, in ascending order. *)
Theorem C8_unsupported_extension_sorted_message :
  forall (cap : capability) (cfg : CreamConfig) (fs : FileSystem) (p : Path.t),
    fs p = true ->
    PyStr.str_in (PyStr.str_lower (Path.suffix p)) (allow_list cap cfg) = false ->
    let listed := PyStr.sorted (PyStr.py_set (allow_list cap cfg)) in
    capability_validate_input cap cfg fs p
    = Raise (ValidationError
               ("Unsupported " ++ capability_label cap ++ " format: "
                  ++ Path.suffix p ++ ". Supported formats: "
                  ++ PyStr.py_repr_list listed)%string)
    /\ Sorted PyStr.str_le listed
    /\ NoDup listed
    /\ (forall f, In f listed <-> In f (allow_list cap cfg)).
Proof.
  intros cap cfg fs p Hfs Hnot listed.
  split.
  - rewrite (@capability_validate_input_eq cap cfg fs p Hfs), Hnot. reflexivity.
  - split; [apply sorted_Sorted|]. split.
    + apply (Permutation_NoDup (l := PyStr.py_set (allow_list cap cfg))).
      * symmetry. apply sorted_perm.
      * apply NoDup_nodup.
    + intros f. unfold listed. split.
      * intros H. apply (Permutation_in _ (sorted_perm _)) in H.
        now apply nodup_In in H.
      * intros H. apply (Permutation_in _ (Permutation_sym (sorted_perm _))).
        now apply nodup_In.
Qed.

(** C8 at a text processor given an audio file. *)
Lemma C8_unsupported_extension_sorted_message_witness :
  capability_validate_input Text config Repo.every_file_exists "in/song.WAV"
  = Raise (ValidationError
             "Unsupported text format: .WAV. Supported formats: ['.csv', '.json', '.tsv', '.txt']").
Proof.
  exact (proj1 (C8_unsupported_extension_sorted_message Text config
                  Repo.every_file_exists "in/song.WAV" eq_refl eq_refl)).
Defined.

(** C8 as stated fails: the extension [.WAV] is not in the audio
    allow-list, the file exists, and [validate_input] accepts it. *)
Lemma C8_counterexample_uppercase_extension_accepted :
  Path.suffix "in/song.WAV" = ".WAV"
  /\ PyStr.str_in ".WAV" (allow_list Audio config) = false
  /\ Repo.every_file_exists "in/song.WAV" = true
  /\ capability_validate_input Audio config Repo.every_file_exists "in/song.WAV"
     = Ok tt.
Proof. repeat split. Qed.

(** C10, as the code has it.  The extension test is made on the
    lower-cased extension of the input, the allow-list is taken as it is:
    an existing input is accepted exactly when its lower-cased extension is
    in the allow-list.  An existing file [stem.e] whose extension differs
    only in case from a listed format that is written in lower case is
    therefore accepted.  The allow-lists the package ships are written in
    lower case.  A processor that inherits [validate_input] from
    [BaseProcessor] has no extension test and accepts every existing
    input. *)
Theorem C10_extension_check_ignores_case :
  forall (cap : capability) (cfg : CreamConfig) (fs : FileSystem)
         (dir : option string) (stem e fmt : string),
    let ext := String Path.dot e in
    let p := Path.in_dir dir (stem ++ ext) in
    stem <> EmptyString ->
    PyStr.contains_char Path.slash stem = false ->
    e <> EmptyString ->
    PyStr.contains_char Path.dot e = false ->
    PyStr.contains_char Path.slash e = false ->
    fs p = true ->
    Path.suffix p = ext
    /\ (capability_validate_input cap cfg fs p = Ok tt
        <-> PyStr.str_in (PyStr.str_lower ext) (allow_list cap cfg) = true)
    /\ (In fmt (allow_list cap cfg) ->
        PyStr.str_lower fmt = fmt ->
        PyStr.str_lower ext = PyStr.str_lower fmt ->
        capability_validate_input cap cfg fs p = Ok tt)
    /\ (forall f, In f (allow_list cap config) -> PyStr.str_lower f = f)
    /\ BaseProcessor.validate_input fs p = Ok tt
    /\ (forall q, fs q = true ->
          (capability_validate_input cap cfg fs q = Ok tt
           <-> PyStr.str_in (PyStr.str_lower (Path.suffix q))
                 (allow_list cap cfg) = true)).
Proof.
  intros cap cfg fs dir stem e fmt ext p Hs Hss He Hed Hes Hfs.
  assert (Hsuf : Path.suffix p = ext).
  { subst p ext. now apply suffix_in_dir. }
  assert (Hgen : forall q, fs q = true ->
             (capability_validate_input cap cfg fs q = Ok tt
              <-> PyStr.str_in (PyStr.str_lower (Path.suffix q))
                    (allow_list cap cfg) = true)).
  { intros q Hq. rewrite (@capability_validate_input_eq cap cfg fs q Hq).
    destruct (PyStr.str_in _ _); split; intros H; try reflexivity; discriminate. }
  assert (Hiff : capability_validate_input cap cfg fs p = Ok tt
                 <-> PyStr.str_in (PyStr.str_lower ext) (allow_list cap cfg) = true).
  { rewrite <- Hsuf. now apply Hgen. }
  split; [exact Hsuf|]. split; [exact Hiff|]. split; [|split; [|split]].
  - intros Hin Hfix Hlow. apply Hiff. rewrite Hlow, Hfix. now apply str_in_iff.
  - intros f Hin.
    destruct cap; simpl in Hin;
      repeat (destruct Hin as [Hin|Hin]; [subst f; reflexivity|]);
      destruct Hin.
  - unfold BaseProcessor.validate_input. now rewrite Hfs.
  - exact Hgen.
Qed.

(** C10 at the upper-case file [in/song.WAV] given to an audio processor
    under the shipped configuration. *)
Lemma C10_extension_check_ignores_case_witness :
  Path.suffix "in/song.WAV" = ".WAV"
  /\ capability_validate_input Audio config Repo.every_file_exists "in/song.WAV"
     = Ok tt.
Proof.
  destruct (@C10_extension_check_ignores_case Audio config
              Repo.every_file_exists (Some "in"%string) "song" "WAV" ".wav"
              ltac:(discriminate) eq_refl ltac:(discriminate) eq_refl eq_refl
              eq_refl) as (H1 & _ & H3 & _).
  split; [exact H1|].
  apply H3.
  - simpl. left. reflexivity.
  - reflexivity.
  - reflexivity.
Defined.

(** C10 as stated fails when the allow-list holds a format that is not in
    lower case: [.Aiff] is listed, the existing file [x.AIFF] has an
    extension that differs from it only in case, and [validate_input]
    refuses it. *)
Lemma C10_counterexample_mixed_case_format_refused :
  In ".Aiff"%string (allow_list Audio Repo.config_mixed_case)
  /\ Path.suffix "x.AIFF" = ".AIFF"%string
  /\ PyStr.str_lower ".AIFF" = PyStr.str_lower ".Aiff"
  /\ Repo.every_file_exists "x.AIFF" = true
  /\ capability_validate_input Audio Repo.config_mixed_case
       Repo.every_file_exists "x.AIFF"
     = Raise (ValidationError
                "Unsupported audio format: .AIFF. Supported formats: ['.Aiff', '.wav']").
Proof.
  split; [simpl; tauto|]. repeat split.
Qed.

(** ** The batch executor *)

Section ExecutorFacts.
Import ParallelProcessor.
Variables Task R : Type.
Variable transfer : Task -> exn -> crossing.
Variable worker_func : Task -> result R.
Implicit Types (tasks pre post : list Task) (results acc : list R)
         (tr : list (event Task)).

Lemma attempted_app tr1 tr2 :
  attempted (tr1 ++ tr2) = attempted tr1 ++ attempted tr2.
Proof.
  induction tr1 as [|ev r IH]; simpl; [reflexivity|].
  destruct ev; simpl; now rewrite IH.
Qed.

Lemma advances_app tr1 tr2 :
  advances (tr1 ++ tr2) = advances tr1 + advances tr2.
Proof.
  induction tr1 as [|ev r IH]; simpl; [reflexivity|].
  destruct ev; simpl; now rewrite IH.
Qed.

Lemma attempted_calls tasks :
  attempted (flat_map (fun t => [Call t; Advance]) tasks) = tasks.
Proof. induction tasks as [|t r IH]; simpl; [reflexivity | now rewrite IH]. Qed.

Lemma attempted_completions tasks :
  attempted (flat_map (fun t => [Completion t; Advance]) tasks) = tasks.
Proof. induction tasks as [|t r IH]; simpl; [reflexivity | now rewrite IH]. Qed.

Lemma advances_calls tasks :
  advances (flat_map (fun t => [Call t; Advance]) tasks) = List.length tasks.
Proof. induction tasks as [|t r IH]; simpl; [reflexivity | now rewrite IH]. Qed.

Lemma advances_completions tasks :
  advances (flat_map (fun t => [Completion t; Advance]) tasks) = List.length tasks.
Proof. induction tasks as [|t r IH]; simpl; [reflexivity | now rewrite IH]. Qed.

Lemma sequential_loop_ok tasks results :
  succeed_with worker_func tasks results ->
  forall acc tr,
    sequential_loop worker_func tasks acc tr
    = (Ok (acc ++ results),
       tr ++ flat_map (fun t => [Call t; Advance]) tasks).
Proof.
  induction 1 as [|t r ts rs Ht _ IH]; intros acc tr; simpl.
  - now rewrite !app_nil_r.
  - rewrite Ht, IH, <- !app_assoc. reflexivity.
Qed.

Lemma parallel_loop_ok tasks results :
  succeed_with worker_func tasks results ->
  forall acc tr,
    parallel_loop transfer worker_func tasks acc tr false
    = (Ends (Ok (acc ++ results)),
       tr ++ flat_map (fun t => [Completion t; Advance]) tasks).
Proof.
  induction 1 as [|t r ts rs Ht _ IH]; intros acc tr; simpl.
  - now rewrite !app_nil_r.
  - rewrite Ht, IH, <- !app_assoc. reflexivity.
Qed.

Lemma sequential_loop_raise pre t post e :
  Forall (fun x => is_ok (worker_func x) = true) pre ->
  worker_func t = Raise e ->
  forall acc tr,
    sequential_loop worker_func (pre ++ t :: post) acc tr
    = (Raise e, tr ++ flat_map (fun t => [Call t; Advance]) pre ++ [Call t]).
Proof.
  intros Hpre Ht. induction Hpre as [|x xs Hx _ IH]; intros acc tr; simpl.
  - now rewrite Ht.
  - destruct (worker_func x) as [r|e0]; [|discriminate].
    rewrite IH, <- !app_assoc. reflexivity.
Qed.


(** Once an outcome is lost the loop returns no list. *)
Lemma parallel_loop_lost tasks :
  forall acc tr,
    ends_ok (fst (parallel_loop transfer worker_func tasks acc tr true)) = false.
Proof.
  induction tasks as [|t ts IH]; intros acc tr; simpl; [reflexivity|].
  destruct (worker_func t) as [r|e]; [apply IH|].
  destruct (transfer t e); try reflexivity. apply IH.
Qed.

(** A failing task among the arrivals: the loop returns no list, whatever
    becomes of the exception. *)
Lemma parallel_loop_fails tasks :
  (exists t, In t tasks /\ is_ok (worker_func t) = false) ->
  forall acc tr lost,
    ends_ok (fst (parallel_loop transfer worker_func tasks acc tr lost)) = false.
Proof.
  induction tasks as [|x xs IH]; intros [t [Hin Hf]] acc tr lost; [destruct Hin|].
  simpl. destruct (worker_func x) as [r|e] eqn:Hx.
  - destruct Hin as [Heq|Hin].
    + subst x. rewrite Hx in Hf. discriminate.
    + apply IH. exists t. now split.
  - destruct (transfer x e); try reflexivity. apply parallel_loop_lost.
Qed.

(** A list with a failing task splits at its first failing task. *)
Lemma first_failure tasks :
  (exists t, In t tasks /\ is_ok (worker_func t) = false) ->
  exists pre t post e,
    tasks = pre ++ t :: post
    /\ Forall (fun x => is_ok (worker_func x) = true) pre
    /\ worker_func t = Raise e.
Proof.
  induction tasks as [|x xs IH]; intros [t [Hin Hf]]; [destruct Hin|].
  destruct (worker_func x) as [r|e] eqn:Hx.
  - destruct Hin as [Heq|Hin].
    + subst x. rewrite Hx in Hf. discriminate.
    + destruct IH as (pre & t' & post & e & Heq & Hpre & Ht').
      { exists t. now split. }
      exists (x :: pre), t', post, e. subst xs. repeat split; try assumption.
      constructor; [now rewrite Hx | assumption].
  - exists [], x, xs, e. repeat split; [constructor | assumption].
Qed.

Lemma nth_remove_nth_perm (l : list Task) :
  forall k d, k < List.length l -> Permutation (nth k l d :: remove_nth k l) l.
Proof.
  induction l as [|x r IH]; intros k d Hk; simpl in Hk; [lia|].
  destruct k as [|k]; simpl; [reflexivity|].
  rewrite perm_swap. constructor. apply IH. lia.
Qed.

Lemma remove_nth_length (l : list Task) :
  forall k, k < List.length l -> S (List.length (remove_nth k l)) = List.length l.
Proof.
  induction l as [|x r IH]; intros k Hk; simpl in Hk; [lia|].
  destruct k as [|k]; simpl; [reflexivity|]. rewrite IH; [reflexivity | lia].
Qed.

(** Every task completes, and completes once. *)
Lemma completion_order_perm (processes : nat) :
  1 <= processes ->
  forall n sched (pending : list Task),
    List.length pending = n ->
    Permutation (completion_order processes sched pending n) pending.
Proof.
  intros Hp. induction n as [|n IH]; intros sched pending Hlen.
  - destruct pending; [apply perm_nil | discriminate].
  - destruct pending as [|t0 l]; [discriminate|].
    cbn [completion_order].
    set (k := hd 0 sched mod Nat.min processes (List.length (t0 :: l))).
    assert (Hk : k < List.length (t0 :: l)).
    { assert (k < Nat.min processes (List.length (t0 :: l))).
      { apply Nat.mod_upper_bound. simpl. lia. }
      lia. }
    apply perm_trans with (nth k (t0 :: l) t0 :: remove_nth k (t0 :: l));
      [|exact (nth_remove_nth_perm (t0 :: l) t0 Hk)].
    apply perm_skip. apply IH.
    pose proof (remove_nth_length (t0 :: l) Hk) as Hr. lia.
Qed.

Lemma imap_unordered_perm (processes : Z) sched tasks :
  (1 <= processes)%Z ->
  Permutation (imap_unordered processes sched tasks) tasks.
Proof.
  intros Hp. unfold imap_unordered. apply completion_order_perm; [lia | reflexivity].
Qed.

Lemma succeed_with_in tasks results :
  succeed_with worker_func tasks results ->
  forall t, In t tasks -> exists r, worker_func t = Ok r.
Proof.
  induction 1 as [|t r ts rs Ht _ IH]; intros x Hx; [destruct Hx|].
  destruct Hx as [Hx|Hx].
  - subst. now exists r.
  - now apply IH.
Qed.

Lemma succeed_with_exists tasks :
  (forall t, In t tasks -> exists r, worker_func t = Ok r) ->
  exists results, succeed_with worker_func tasks results.
Proof.
  induction tasks as [|t ts IH]; intros H.
  - exists []. constructor.
  - destruct (H t (or_introl eq_refl)) as [r Hr].
    destruct IH as [rs Hrs]. { intros x Hx. apply H. now right. }
    exists (r :: rs). now constructor.
Qed.

Lemma succeed_with_flat_map tasks results :
  succeed_with worker_func tasks results ->
  flat_map (fun t => match worker_func t with Ok r => [r] | Raise _ => [] end) tasks
  = results.
Proof.
  induction 1 as [|t r ts rs Ht _ IH]; simpl; [reflexivity|].
  now rewrite Ht, IH.
Qed.

(** Results obtained along a permutation of the tasks are a permutation
    of the results obtained along the tasks. *)
Lemma succeed_with_perm tasks tasks' results results' :
  Permutation tasks' tasks ->
  succeed_with worker_func tasks results ->
  succeed_with worker_func tasks' results' ->
  Permutation results' results.
Proof.
  intros Hp H H'.
  rewrite <- (succeed_with_flat_map H), <- (succeed_with_flat_map H').
  now apply Permutation_flat_map.
Qed.

End ExecutorFacts.

Section ExecutorTheorems.
Import ParallelProcessor.
Variables Task R : Type.
Implicit Types (transfer : Task -> exn -> crossing)
         (self : ParallelProcessor.t) (tasks : list Task)
         (worker_func : Task -> result R).

Lemma process_batch_sequential transfer self sched tasks worker_func description :
  tasks <> [] ->
  num_workers self = 1%Z ->
  process_batch transfer self sched tasks worker_func description =
  let total := List.length tasks in
  match sequential_loop worker_func tasks []
          [LogProgressStart description total; ProgressEnter;
           AddTask description total] with
  | (Ok results, tr') =>
      (Ends (Ok results),
       tr' ++ [ProgressExit; LogProgressComplete description total])
  | (Raise e, tr') => (Ends (Raise e), tr' ++ [ProgressExit])
  end.
Proof.
  intros Hne Hw. destruct tasks as [|x xs]; [congruence|].
  unfold process_batch. rewrite Hw. reflexivity.
Qed.

Lemma process_batch_parallel transfer self sched tasks worker_func description :
  tasks <> [] ->
  (1 < num_workers self)%Z ->
  process_batch transfer self sched tasks worker_func description =
  let total := List.length tasks in
  match parallel_loop transfer worker_func
          (imap_unordered (num_workers self) sched tasks) []
          [LogProgressStart description total; PoolEnter (num_workers self);
           ProgressEnter; AddTask description total] false with
  | (Ends (Ok results), tr') =>
      (Ends (Ok results),
       tr' ++ [ProgressExit; PoolExit; LogProgressComplete description total])
  | (Ends (Raise e), tr') => (Ends (Raise e), tr' ++ [ProgressExit; PoolExit])
  | (Hangs, tr') => (Hangs, tr')
  end.
Proof.
  intros Hne Hw. destruct tasks as [|x xs]; [congruence|].
  unfold process_batch.
  destruct (num_workers self =? 1)%Z eqn:E1; [apply Z.eqb_eq in E1; lia|].
  destruct (num_workers self <? 1)%Z eqn:E2; [apply Z.ltb_lt in E2; lia|].
  reflexivity.
Qed.

(** C2. With one worker and tasks that all succeed, [process_batch]
    returns the results in submission order; the worker is called on the
    tasks one at a time in that order, each call followed by one progress
    advance. *)
Theorem C2_sequential_results_in_submission_order :
  forall (transfer : Task -> exn -> crossing) (sched : list nat)
         (tasks : list Task) (worker_func : Task -> result R)
         (results : list R) (description : string),
    tasks <> [] ->
    succeed_with worker_func tasks results ->
    let total := List.length tasks in
    process_batch transfer {| num_workers := 1 |} sched tasks worker_func
                  description
    = (Ends (Ok results),
       [LogProgressStart description total; ProgressEnter;
        AddTask description total]
         ++ flat_map (fun t => [Call t; Advance]) tasks
         ++ [ProgressExit; LogProgressComplete description total])
    /\ List.length results = List.length tasks.
Proof.
  intros transfer sched tasks worker_func results description Hne Hok total.
  split.
  - rewrite process_batch_sequential by (assumption || reflexivity).
    cbv zeta. rewrite (sequential_loop_ok Hok). reflexivity.
  - symmetry. exact (Forall2_length Hok).
Qed.

(** C3. With more than one worker and tasks that all succeed,
    [process_batch] returns, whatever the timing of the workers, a
    permutation of the per-task results: one result per task.  The order
    is not the submission order in general: with two tasks or more, some
    timing delivers the result of the second task first. *)
Theorem C3_parallel_results_are_a_permutation :
  forall (transfer : Task -> exn -> crossing) (self : ParallelProcessor.t)
         (tasks : list Task) (worker_func : Task -> result R)
         (results : list R) (description : string),
    (1 < num_workers self)%Z ->
    succeed_with worker_func tasks results ->
    (forall sched, exists out,
        fst (process_batch transfer self sched tasks worker_func description)
        = Ends (Ok out)
        /\ Permutation out results
        /\ List.length out = List.length tasks)
    /\ (forall t1 t2 rest r1 r2 rs,
          tasks = t1 :: t2 :: rest ->
          results = r1 :: r2 :: rs ->
          exists sched out,
            fst (process_batch transfer self sched tasks worker_func description)
            = Ends (Ok (r2 :: out))).
Proof.
  intros transfer self tasks worker_func results description Hw Hok.
  assert (Hrun : forall sched, exists out,
             succeed_with worker_func (imap_unordered (num_workers self) sched tasks) out
             /\ fst (process_batch transfer self sched tasks worker_func description)
                = Ends (Ok out)).
  { intros sched.
    destruct (succeed_with_exists worker_func
                (imap_unordered (num_workers self) sched tasks)) as [out Hout].
    { intros t Ht. apply (succeed_with_in Hok).
      apply (Permutation_in _ (imap_unordered_perm sched tasks
                                 (processes := num_workers self) ltac:(lia))).
      exact Ht. }
    exists out. split; [exact Hout|].
    destruct tasks as [|x xs] eqn:Etasks.
    - inversion Hout; subst. reflexivity.
    - rewrite process_batch_parallel by (congruence || assumption).
      cbv zeta. rewrite (parallel_loop_ok transfer Hout). reflexivity. }
  split.
  - intros sched. destruct (Hrun sched) as (out & Hout & Hfst).
    exists out. split; [exact Hfst|].
    assert (Hperm : Permutation out results).
    { apply (succeed_with_perm (worker_func := worker_func)
               (tasks := tasks)
               (tasks' := imap_unordered (num_workers self) sched tasks));
        try assumption.
      apply imap_unordered_perm. lia. }
    split; [exact Hperm|].
    rewrite (Permutation_length Hperm). symmetry. exact (Forall2_length Hok).
  - intros t1 t2 rest r1 r2 rs Ht Hr. subst tasks results.
    destruct (Hrun [1]) as (out & Hout & Hfst).
    assert (Harr : exists arr,
               imap_unordered (num_workers self) [1] (t1 :: t2 :: rest) = t2 :: arr).
    { unfold imap_unordered. cbn [List.length completion_order hd].
      assert (Hmod : 1 mod Nat.min (Z.to_nat (num_workers self))
                                   (S (S (List.length rest))) = 1).
      { apply Nat.mod_small. lia. }
      rewrite Hmod. simpl. eexists. reflexivity. }
    destruct Harr as [arr Harr]. rewrite Harr in Hout.
    inversion Hout as [|a b l l' Hab Htl]; subst.
    inversion Hok as [|? ? ? ? _ Hok']; subst.
    inversion Hok' as [|? ? ? ? H2 _]; subst.
    assert (b = r2) by congruence. subst b.
    exists [1], l'. exact Hfst.
Qed.

Lemma process_batch_no_worker transfer self sched tasks worker_func description :
  tasks <> [] ->
  (num_workers self < 1)%Z ->
  process_batch transfer self sched tasks worker_func description =
  (Ends (Raise (PyError "ValueError" "Number of processes must be at least 1")),
   [LogProgressStart description (List.length tasks)]).
Proof.
  intros Hne Hw. destruct tasks as [|x xs]; [congruence|].
  unfold process_batch.
  destruct (num_workers self =? 1)%Z eqn:E1; [apply Z.eqb_eq in E1; lia|].
  destruct (num_workers self <? 1)%Z eqn:E2; [reflexivity|].
  apply Z.ltb_ge in E2. lia.
Qed.


End ExecutorTheorems.



(** C2 at the batch [A, B, C]. *)
Lemma C2_sequential_results_in_submission_order_witness :
  fst (ParallelProcessor.process_batch Repo.transfer
         {| ParallelProcessor.num_workers := 1 |}
         [] ["A"; "B"; "C"] Repo.total_worker "Processing")
  = Ends (Ok ["result(A)"; "result(B)"; "result(C)"]).
Proof.
  assert (Hok : ParallelProcessor.succeed_with Repo.total_worker ["A"; "B"; "C"]
                  ["result(A)"; "result(B)"; "result(C)"]).
  { repeat constructor. }
  destruct (@C2_sequential_results_in_submission_order string string
              Repo.transfer [] ["A"; "B"; "C"] Repo.total_worker
              ["result(A)"; "result(B)"; "result(C)"] "Processing"
              ltac:(discriminate) Hok) as [H _].
  rewrite H. reflexivity.
Defined.

(** C3 at the batch [A, B, C] with three workers: some timing returns the
    results in another order than submitted. *)
Lemma C3_parallel_results_are_a_permutation_witness :
  (exists out,
      fst (ParallelProcessor.process_batch Repo.transfer
             {| ParallelProcessor.num_workers := 3 |}
             [2; 1] ["A"; "B"; "C"] Repo.total_worker "Processing")
      = Ends (Ok out)
      /\ Permutation out ["result(A)"; "result(B)"; "result(C)"])
  /\ fst (ParallelProcessor.process_batch Repo.transfer
            {| ParallelProcessor.num_workers := 3 |}
            [2; 1] ["A"; "B"; "C"] Repo.total_worker "Processing")
     = Ends (Ok ["result(C)"; "result(B)"; "result(A)"]).
Proof.
  assert (Hok : ParallelProcessor.succeed_with Repo.total_worker ["A"; "B"; "C"]
                  ["result(A)"; "result(B)"; "result(C)"]).
  { repeat constructor. }
  split; [|reflexivity].
  destruct (@C3_parallel_results_are_a_permutation string string Repo.transfer
              {| ParallelProcessor.num_workers := 3 |} ["A"; "B"; "C"]
              Repo.total_worker ["result(A)"; "result(B)"; "result(C)"]
              "Processing" ltac:(simpl; lia) Hok) as [H _].
  destruct (H [2; 1]) as (out & H1 & H2 & _).
  exists out. split; assumption.
Defined.

(* ================================================================= *)
(** * Further properties of the code *)

(** ** Stripping and splitting *)

Lemma rstrip_cons (c : ascii) (r : string) :
  StrOps.rstrip (String c r) =
  match StrOps.rstrip r with
  | EmptyString =>
      if StrOps.is_space c then EmptyString else String c EmptyString
  | String c' r' => String c (String c' r')
  end.
Proof. reflexivity. Qed.

Lemma rstrip_idem (s : string) : StrOps.rstrip (StrOps.rstrip s) = StrOps.rstrip s.
Proof.
  induction s as [|c r IH]; [reflexivity|].
  rewrite (rstrip_cons c r). destruct (StrOps.rstrip r) as [|c' r'] eqn:E.
  - destruct (StrOps.is_space c) eqn:Hc; [reflexivity|].
    rewrite rstrip_cons. simpl. now rewrite Hc.
  - rewrite rstrip_cons, IH. reflexivity.
Qed.

Lemma lstrip_no_leading (s : string) : StrOps.no_leading_space (StrOps.lstrip s).
Proof.
  induction s as [|c r IH]; simpl; [exact I|].
  destruct (StrOps.is_space c) eqn:Hc; [exact IH | exact Hc].
Qed.

Lemma lstrip_fix (s : string) : StrOps.no_leading_space s -> StrOps.lstrip s = s.
Proof. destruct s as [|c r]; simpl; [reflexivity | now intros ->]. Qed.

Lemma rstrip_no_leading (s : string) :
  StrOps.no_leading_space s -> StrOps.no_leading_space (StrOps.rstrip s).
Proof.
  destruct s as [|c r]; simpl; [trivial|]. intros Hc.
  destruct (StrOps.rstrip r); [now rewrite Hc | exact Hc].
Qed.

Lemma strip_idem (s : string) : StrOps.strip (StrOps.strip s) = StrOps.strip s.
Proof.
  unfold StrOps.strip.
  rewrite lstrip_fix by (apply rstrip_no_leading, lstrip_no_leading).
  apply rstrip_idem.
Qed.

Lemma split_once_contains (c : ascii) (s : string) :
  PyStr.contains_char c s = true <-> StrOps.split_once c s <> None.
Proof.
  induction s as [|a r IH]; simpl.
  - split; [discriminate | congruence].
  - destruct (Ascii.eqb a c); simpl.
    + split; [discriminate | reflexivity].
    + rewrite IH. destruct (StrOps.split_once c r) as [[k v]|];
        split; congruence.
Qed.

Lemma split_once_format (c : ascii) (k v : string) :
  PyStr.contains_char c k = false ->
  StrOps.split_once c (k ++ String c v) = Some (k, v).
Proof.
  induction k as [|a r IH]; simpl; intros H.
  - now rewrite Ascii.eqb_refl.
  - apply orb_false_iff in H. destruct H as [H1 H2].
    rewrite H1, (IH H2). reflexivity.
Qed.

Lemma contains_char_format (c : ascii) (k v : string) :
  PyStr.contains_char c (k ++ String c v) = true.
Proof.
  induction k as [|a r IH]; simpl.
  - now rewrite Ascii.eqb_refl.
  - rewrite IH. apply orb_true_r.
Qed.

Lemma is_empty_true (s : string) : StrOps.is_empty s = true <-> s = EmptyString.
Proof. destruct s; simpl; split; congruence. Qed.

(** ** Command-line parameters *)

(** One round of the loop of [_parse_params]. *)
Lemma parse_loop_step (entry : string) (rest : list string) (params : Dict.t string) :
  Cli.parse_loop (entry :: rest) params =
  if Cli.entry_ok entry
  then Cli.parse_loop rest
         (Dict.set (Cli.entry_key entry) (Cli.entry_value entry) params)
  else Raise (Cli.BadParameter
                (if PyStr.contains_char Cli.equals_sign entry
                 then "Parameter key cannot be empty"
                 else "Use --param key=value to pass processor arguments")).
Proof.
  simpl. unfold Cli.entry_ok, Cli.entry_key, Cli.entry_value.
  destruct (PyStr.contains_char Cli.equals_sign entry) eqn:Hc; simpl.
  - apply split_once_contains in Hc.
    destruct (StrOps.split_once Cli.equals_sign entry) as [[k v]|]; [|congruence].
    destruct (StrOps.is_empty (StrOps.strip k)); reflexivity.
  - destruct (StrOps.split_once Cli.equals_sign entry) as [[k v]|] eqn:Hs;
      [|reflexivity].
    assert (PyStr.contains_char Cli.equals_sign entry = true).
    { apply split_once_contains. congruence. }
    congruence.
Qed.

Lemma parse_loop_ok (entries : list string) :
  forallb Cli.entry_ok entries = true ->
  forall params,
    Cli.parse_loop entries params =
    Ok (fold_left Cli.parse_step entries params).
Proof.
  induction entries as [|e r IH]; intros H params; [reflexivity|].
  simpl in H. apply andb_true_iff in H. destruct H as [He Hr].
  rewrite parse_loop_step, He. simpl. now apply IH.
Qed.

Lemma parse_loop_fail (entries : list string) :
  forallb Cli.entry_ok entries = false ->
  forall params, exists msg,
    Cli.parse_loop entries params = Raise (Cli.BadParameter msg).
Proof.
  induction entries as [|e r IH]; intros H params; [discriminate|].
  simpl in H. rewrite parse_loop_step.
  destruct (Cli.entry_ok e); simpl in H.
  - now apply IH.
  - eexists. reflexivity.
Qed.

(** X1. [_parse_params] returns a dictionary exactly when every entry
    holds an equals sign with a non-blank key before the first one;
    otherwise it raises [BadParameter], and nothing else. *)
Theorem X1_parse_params_accepts_iff_entries_ok :
  forall entries : list string,
    is_ok (Cli._parse_params entries) = forallb Cli.entry_ok entries
    /\ (forall e, Cli._parse_params entries = Raise e ->
          exists msg, e = Cli.BadParameter msg).
Proof.
  intros entries. unfold Cli._parse_params.
  destruct (forallb Cli.entry_ok entries) eqn:H.
  - rewrite (parse_loop_ok _ H). split; [reflexivity | discriminate].
  - destruct (parse_loop_fail _ H (Dict.empty string)) as [msg Hm].
    rewrite Hm. split; [reflexivity|].
    intros e He. inversion He. now exists msg.
Qed.

Section ParseParamsFacts.

Lemma parse_params_ok_inv (entries : list string) (d : Dict.t string) :
  Cli._parse_params entries = Ok d ->
  forallb Cli.entry_ok entries = true
  /\ d = fold_left Cli.parse_step entries (Dict.empty string).
Proof.
  intros H. unfold Cli._parse_params in H.
  destruct (forallb Cli.entry_ok entries) eqn:E.
  - rewrite (parse_loop_ok _ E) in H. inversion H. now split.
  - destruct (parse_loop_fail _ E (Dict.empty string)) as [msg Hm].
    rewrite Hm in H. discriminate.
Qed.

Lemma get_set_inv (V : Type) (k k0 : string) (v v0 : V) (d : Dict.t V) :
  Dict.get k (Dict.set k0 v0 d) = Some v ->
  (k = k0 /\ v = v0) \/ (k <> k0 /\ Dict.get k d = Some v).
Proof.
  intros H. destruct (string_dec k k0) as [->|Hne].
  - rewrite get_set_same in H. inversion H. now left.
  - rewrite get_set_other in H by assumption. now right.
Qed.

Lemma keys_set_in (V : Type) (k k0 : string) (v0 : V) (d : Dict.t V) :
  In k (Dict.keys (Dict.set k0 v0 d)) <-> k = k0 \/ In k (Dict.keys d).
Proof.
  rewrite keys_set. destruct (Dict.contains k0 d) eqn:E.
  - apply contains_keys in E. split; [tauto|]. intros [->|H]; assumption.
  - rewrite in_app_iff. simpl. intuition congruence.
Qed.

Lemma entry_ok_key (e : string) :
  Cli.entry_ok e = true ->
  Cli.entry_key e <> EmptyString
  /\ StrOps.strip (Cli.entry_key e) = Cli.entry_key e
  /\ StrOps.strip (Cli.entry_value e) = Cli.entry_value e.
Proof.
  unfold Cli.entry_ok, Cli.entry_key, Cli.entry_value.
  destruct (StrOps.split_once Cli.equals_sign e) as [[k v]|]; [|discriminate].
  intros H. apply negb_true_iff in H. split.
  - intros Hk. apply is_empty_true in Hk. congruence.
  - split; apply strip_idem.
Qed.

Lemma parse_fold_inv (entries : list string) :
  forallb Cli.entry_ok entries = true ->
  forall params,
    Dict.wf params ->
    (forall k v, Dict.get k params = Some v ->
       k <> EmptyString /\ StrOps.strip k = k /\ StrOps.strip v = v) ->
    let d := fold_left Cli.parse_step entries params in
    Dict.wf d
    /\ (forall k, In k (Dict.keys d) <->
          In k (Dict.keys params) \/ exists e, In e entries /\ Cli.entry_key e = k)
    /\ (forall k v, Dict.get k d = Some v ->
          k <> EmptyString /\ StrOps.strip k = k /\ StrOps.strip v = v).
Proof.
  induction entries as [|e r IH]; intros Hok params Hwf Hgood; simpl.
  - split; [exact Hwf|]. split; [|exact Hgood].
    intros k. split; [tauto|]. intros [H|[e [[] _]]]. exact H.
  - simpl in Hok. apply andb_true_iff in Hok. destruct Hok as [He Hr].
    destruct (entry_ok_key _ He) as (Hk1 & Hk2 & Hv).
    destruct (IH Hr (Cli.parse_step params e)) as (W & K & G).
    + now apply set_wf.
    + intros k v Hg. apply get_set_inv in Hg.
      destruct Hg as [[-> ->]|[_ Hg]]; [now repeat split | now apply Hgood].
    + split; [exact W|]. split; [|exact G].
      intros k. rewrite K. unfold Cli.parse_step at 1. rewrite keys_set_in. split.
      * intros [[->|H]|[e' [Hin Hk]]].
        -- right. exists e. split; [now left | reflexivity].
        -- now left.
        -- right. exists e'. split; [now right | exact Hk].
      * intros [H|[e' [[->|Hin] Hk]]].
        -- left. now right.
        -- left. left. now symmetry.
        -- right. now exists e'.
Qed.

End ParseParamsFacts.

(** X2. A dictionary returned by [_parse_params] has one entry per key;
    its keys are the stripped keys of the entries, none of them empty, and
    every key and value is free of blanks at both ends. *)
Theorem X2_parse_params_keys_and_values_stripped :
  forall (entries : list string) (d : Dict.t string),
    Cli._parse_params entries = Ok d ->
    Dict.wf d
    /\ (forall k, In k (Dict.keys d) <->
          exists e, In e entries /\ Cli.entry_key e = k)
    /\ (forall k v, Dict.get k d = Some v ->
          k <> EmptyString /\ StrOps.strip k = k /\ StrOps.strip v = v).
Proof.
  intros entries d H. apply parse_params_ok_inv in H. destruct H as [Hok ->].
  destruct (parse_fold_inv entries Hok (params := Dict.empty string))
    as (W & K & G).
  - constructor.
  - intros k v Hg. discriminate.
  - split; [exact W|]. split; [|exact G].
    intros k. rewrite K. simpl. split; [intros [[]|H]; exact H | now right].
Qed.

(** X2 at three entries, two of them for the key [rate]. *)
Lemma X2_parse_params_keys_and_values_stripped_witness :
  Cli._parse_params CliExamples.entries = Ok [("rate", "8000"); ("mode", "a=b")]
  /\ Dict.wf [("rate", "8000"); ("mode", "a=b")].
Proof.
  split; [reflexivity|].
  exact (proj1 (X2_parse_params_keys_and_values_stripped
                  CliExamples.entries eq_refl)).
Defined.

(** X3. In [_parse_params] a later entry wins: after one more accepted
    entry the dictionary maps the entry's key to the entry's value and
    every other key to what it had. *)
Theorem X3_parse_params_later_entry_wins :
  forall (entries : list string) (e : string) (d : Dict.t string),
    Cli._parse_params entries = Ok d ->
    Cli.entry_ok e = true ->
    exists d',
      Cli._parse_params (entries ++ [e]) = Ok d'
      /\ Dict.get (Cli.entry_key e) d' = Some (Cli.entry_value e)
      /\ (forall k, k <> Cli.entry_key e -> Dict.get k d' = Dict.get k d).
Proof.
  intros entries e d H He. apply parse_params_ok_inv in H. destruct H as [Hok ->].
  eexists. split.
  - unfold Cli._parse_params. rewrite parse_loop_ok.
    + rewrite fold_left_app. reflexivity.
    + rewrite forallb_app, Hok. simpl. now rewrite He.
  - simpl. split; [apply get_set_same|].
    intros k Hk. now apply get_set_other.
Qed.

(** X3 at a second value for [rate]. *)
Lemma X3_parse_params_later_entry_wins_witness :
  exists d',
    Cli._parse_params ([" rate = 16000 "; "mode=a=b"] ++ ["rate=8000"]) = Ok d'
    /\ Dict.get "rate" d' = Some "8000".
Proof.
  destruct (X3_parse_params_later_entry_wins [" rate = 16000 "; "mode=a=b"]
              "rate=8000" eq_refl eq_refl) as (d' & H1 & H2 & _).
  exists d'. split; [exact H1 | exact H2].
Defined.

Lemma set_new_key (V : Type) (k : string) (v : V) (d : Dict.t V) :
  Dict.contains k d = false -> Dict.set k v d = d ++ [(k, v)].
Proof.
  induction d as [|[k' v'] r IH]; simpl; [reflexivity|].
  intros H. apply orb_false_iff in H. destruct H as [H1 H2].
  rewrite H1, (IH H2). reflexivity.
Qed.

Lemma format_entry_reads_back (k v : string) :
  Cli.clean_key k = true ->
  Cli.clean_value v = true ->
  Cli.entry_ok (Cli.format_entry (k, v)) = true
  /\ Cli.entry_key (Cli.format_entry (k, v)) = k
  /\ Cli.entry_value (Cli.format_entry (k, v)) = v.
Proof.
  unfold Cli.clean_key, Cli.clean_value. intros Hk Hv.
  apply andb_true_iff in Hk. destruct Hk as [Hk Hk3].
  apply andb_true_iff in Hk. destruct Hk as [Hk1 Hk2].
  apply negb_true_iff in Hk1, Hk2.
  apply String.eqb_eq in Hk3, Hv.
  unfold Cli.entry_ok, Cli.entry_key, Cli.entry_value, Cli.format_entry. simpl.
  rewrite (@split_once_format Cli.equals_sign k v Hk2), Hk3, Hv, Hk1. repeat split.
Qed.

Lemma parse_fold_fresh (kv : list (string * string)) :
  Forall (fun p => Cli.clean_key (fst p) = true /\ Cli.clean_value (snd p) = true) kv ->
  forall params,
    NoDup (Dict.keys params ++ map fst kv) ->
    fold_left Cli.parse_step (map Cli.format_entry kv) params = params ++ kv.
Proof.
  induction 1 as [|[k v] r [Hk Hv] _ IH]; intros params Hnd; simpl.
  - now rewrite app_nil_r.
  - destruct (format_entry_reads_back k v Hk Hv) as (_ & Ek & Ev).
    unfold Cli.parse_step at 2. rewrite Ek, Ev.
    assert (Hfresh : Dict.contains k params = false).
    { destruct (Dict.contains k params) eqn:E; [|reflexivity].
      apply contains_keys in E. simpl in Hnd.
      apply NoDup_remove_2 in Hnd. exfalso. apply Hnd.
      apply in_or_app. now left. }
    rewrite (@set_new_key string k v params Hfresh), IH.
    + now rewrite <- app_assoc.
    + unfold Dict.keys. rewrite map_app. simpl.
      rewrite <- app_assoc. exact Hnd.
Qed.

(** X4. Parsing reads back what was written: for pairs with distinct
    keys, each key not empty, without equals sign and without blanks at its
    ends, each value without blanks at its ends, [_parse_params] on the
    entries [key=value] returns exactly these pairs, in their order. *)
Theorem X4_parse_params_round_trip :
  forall kv : list (string * string),
    NoDup (map fst kv) ->
    Forall (fun p => Cli.clean_key (fst p) = true
                     /\ Cli.clean_value (snd p) = true) kv ->
    Cli._parse_params (map Cli.format_entry kv) = Ok kv.
Proof.
  intros kv Hnd Hclean. unfold Cli._parse_params.
  rewrite parse_loop_ok.
  - f_equal. now apply (@parse_fold_fresh kv Hclean (Dict.empty string)).
  - apply forallb_forall. intros e He. apply in_map_iff in He.
    destruct He as [[k v] [<- Hin]].
    rewrite Forall_forall in Hclean. destruct (Hclean _ Hin) as [Hk Hv].
    exact (proj1 (format_entry_reads_back k v Hk Hv)).
Qed.

(** X4 at two parameters of the audio processors. *)
Lemma X4_parse_params_round_trip_witness :
  Cli._parse_params ["target_sr=16000"; "normalization_type=peak"]
  = Ok CliExamples.pairs.
Proof.
  apply (@X4_parse_params_round_trip CliExamples.pairs).
  - repeat constructor; simpl; intuition discriminate.
  - repeat constructor.
Defined.

(** ** Configuration *)

(** X5. [validate_config] and [set_parallel_config] keep [max_workers] at
    one or more: [validate_config] raises a smaller value to one and
    leaves a valid configuration as it is; [set_parallel_config] stores
    [max(1, n)] for a given [n] and keeps the value otherwise; neither
    touches the format lists. *)
Theorem X5_config_keeps_max_workers_positive :
  forall (cfg : CreamConfig) (n : Z) (bars : option bool),
    (1 <= max_workers (CreamConfigOps.validate_config cfg))%Z
    /\ ((1 <= max_workers cfg)%Z -> CreamConfigOps.validate_config cfg = cfg)
    /\ max_workers (CreamConfigOps.set_parallel_config cfg (Some n) bars) = Z.max 1 n
    /\ (1 <= max_workers (CreamConfigOps.set_parallel_config cfg (Some n) bars))%Z
    /\ max_workers (CreamConfigOps.set_parallel_config cfg None bars) = max_workers cfg
    /\ audio_formats (CreamConfigOps.set_parallel_config cfg (Some n) bars)
       = audio_formats cfg
    /\ text_formats (CreamConfigOps.set_parallel_config cfg (Some n) bars)
       = text_formats cfg
    /\ audio_formats (CreamConfigOps.validate_config cfg) = audio_formats cfg
    /\ text_formats (CreamConfigOps.validate_config cfg) = text_formats cfg.
Proof.
  intros cfg n bars. unfold CreamConfigOps.validate_config.
  destruct (max_workers cfg <? 1)%Z eqn:E.
  - apply Z.ltb_lt in E. destruct bars; simpl; repeat split; lia.
  - apply Z.ltb_ge in E. destruct bars; simpl; repeat split; lia.
Qed.

(** X5 at the shipped configuration and at a request for no worker. *)
Lemma X5_config_keeps_max_workers_positive_witness :
  CreamConfigOps.validate_config config = config
  /\ max_workers (CreamConfigOps.set_parallel_config config (Some 0%Z) None) = 1%Z.
Proof.
  destruct (X5_config_keeps_max_workers_positive config 0 None)
    as (_ & H & H' & _).
  split; [apply H; simpl; lia | exact H'].
Defined.

(** ** Input validation, continued *)

(** X6. On a path that does not exist, [validate_input] of the base
    class and of both capability-specific classes raises the same
    [ValidationError], [Input file not found], whatever the extension and
    the configured formats: existence is tested first. *)
Theorem X6_validate_input_missing_file :
  forall (cap : capability) (cfg : CreamConfig) (fs : FileSystem) (p : Path.t),
    fs p = false ->
    BaseProcessor.validate_input fs p
    = Raise (ValidationError ("Input file not found: " ++ p)%string)
    /\ capability_validate_input cap cfg fs p
       = Raise (ValidationError ("Input file not found: " ++ p)%string).
Proof.
  intros cap cfg fs p H.
  assert (Hb : BaseProcessor.validate_input fs p
               = Raise (ValidationError ("Input file not found: " ++ p)%string)).
  { unfold BaseProcessor.validate_input. now rewrite H. }
  split; [exact Hb|].
  destruct cap; simpl;
    [unfold BaseAudioProcessor.validate_input
    |unfold BaseTextProcessor.validate_input];
    now rewrite Hb.
Qed.

(** X6 at a missing audio file with a supported extension. *)
Lemma X6_validate_input_missing_file_witness :
  capability_validate_input Audio config (fun _ => false) "in/song.wav"
  = Raise (ValidationError "Input file not found: in/song.wav").
Proof.
  exact (proj2 (@X6_validate_input_missing_file Audio config (fun _ => false)
                  "in/song.wav" eq_refl)).
Defined.

(** X7. The file test of the configuration and the validation of the
    processors agree: an existing path passes [validate_input] of an audio
    (text) processor exactly when [is_audio_file] ([is_text_file]) holds
    for it. *)
Theorem X7_is_audio_file_agrees_with_validate_input :
  forall (cfg : CreamConfig) (fs : FileSystem) (p : Path.t),
    fs p = true ->
    (BaseAudioProcessor.validate_input cfg fs p = Ok tt
     <-> CreamConfigOps.is_audio_file cfg p = true)
    /\ (BaseTextProcessor.validate_input cfg fs p = Ok tt
        <-> CreamConfigOps.is_text_file cfg p = true).
Proof.
  intros cfg fs p Hfs. split.
  - change (capability_validate_input Audio cfg fs p = Ok tt
            <-> CreamConfigOps.is_audio_file cfg p = true).
    rewrite (@capability_validate_input_eq Audio cfg fs p Hfs).
    unfold CreamConfigOps.is_audio_file. simpl.
    destruct (PyStr.str_in _ _); split; intros H; try reflexivity; discriminate.
  - change (capability_validate_input Text cfg fs p = Ok tt
            <-> CreamConfigOps.is_text_file cfg p = true).
    rewrite (@capability_validate_input_eq Text cfg fs p Hfs).
    unfold CreamConfigOps.is_text_file. simpl.
    destruct (PyStr.str_in _ _); split; intros H; try reflexivity; discriminate.
Qed.

(** X7 at an upper-case audio file. *)
Lemma X7_is_audio_file_agrees_with_validate_input_witness :
  BaseAudioProcessor.validate_input config Repo.every_file_exists "in/song.WAV" = Ok tt.
Proof.
  apply (proj1 (@X7_is_audio_file_agrees_with_validate_input config
                  Repo.every_file_exists "in/song.WAV" eq_refl)).
  reflexivity.
Defined.

(** ** The batch executor, continued *)

Section ExecutorMore.
Import ParallelProcessor.
Variables Task R : Type.
Implicit Types (transfer : Task -> exn -> crossing)
         (self : ParallelProcessor.t) (tasks : list Task)
         (worker_func : Task -> result R) (tr : list (event Task)).

Lemma count_app (p : event Task -> bool) tr1 tr2 :
  Trace.count p (tr1 ++ tr2) = Trace.count p tr1 + Trace.count p tr2.
Proof. unfold Trace.count. now rewrite filter_app, length_app. Qed.

Lemma sequential_loop_count (p : event Task -> bool) worker_func :
  Trace.outside_loop p ->
  forall tasks acc tr,
    Trace.count p (snd (sequential_loop worker_func tasks acc tr))
    = Trace.count p tr.
Proof.
  intros (Hc & _ & Ha). induction tasks as [|t r IH]; intros acc tr; simpl.
  - reflexivity.
  - destruct (worker_func t) as [x|e]; simpl.
    + rewrite IH, count_app. unfold Trace.count at 2. simpl.
      rewrite Hc, Ha. simpl. lia.
    + rewrite count_app. unfold Trace.count at 2. simpl. rewrite Hc. simpl. lia.
Qed.

Lemma parallel_loop_count (p : event Task -> bool) transfer worker_func :
  Trace.outside_loop p ->
  forall tasks acc tr lost,
    Trace.count p (snd (parallel_loop transfer worker_func tasks acc tr lost))
    = Trace.count p tr.
Proof.
  intros (_ & Hc & Ha). induction tasks as [|t r IH]; intros acc tr lost; simpl.
  - destruct lost; reflexivity.
  - destruct (worker_func t) as [x|e]; simpl.
    + rewrite IH, count_app. unfold Trace.count at 2. simpl.
      rewrite Hc, Ha. simpl. lia.
    + destruct (transfer t e); simpl.
      * rewrite count_app. unfold Trace.count at 2. simpl. rewrite Hc. simpl. lia.
      * rewrite count_app. unfold Trace.count at 2. simpl. rewrite Hc. simpl. lia.
      * apply IH.
      * reflexivity.
Qed.

Lemma forallb_ok_succeed worker_func tasks :
  forallb (fun t => is_ok (worker_func t)) tasks = true ->
  exists results, succeed_with worker_func tasks results.
Proof.
  intros H. apply succeed_with_exists. intros t Ht.
  rewrite forallb_forall in H. specialize (H t Ht).
  destruct (worker_func t) as [r|e]; [now exists r | discriminate].
Qed.

Lemma forallb_ok_perm worker_func (l l' : list Task) :
  Permutation l l' ->
  forallb (fun t => is_ok (worker_func t)) l
  = forallb (fun t => is_ok (worker_func t)) l'.
Proof.
  intros Hp. apply eq_true_iff_eq. rewrite !forallb_forall. split; intros H t Ht.
  - apply H. now apply (Permutation_in _ (Permutation_sym Hp)).
  - apply H. now apply (Permutation_in _ Hp).
Qed.

Lemma forallb_ok_failure worker_func tasks :
  forallb (fun t => is_ok (worker_func t)) tasks = false ->
  exists t, In t tasks /\ is_ok (worker_func t) = false.
Proof.
  induction tasks as [|x xs IH]; simpl; [discriminate|].
  destruct (is_ok (worker_func x)) eqn:E; simpl.
  - intros H. destruct (IH H) as [t [Hin Hf]]. exists t. split; [now right | exact Hf].
  - intros _. exists x. split; [now left | exact E].
Qed.

(** A failing task: no list is returned, whatever becomes of the
    exception. *)
Lemma process_batch_fails transfer self sched tasks worker_func description :
  (exists t, In t tasks /\ is_ok (worker_func t) = false) ->
  ends_ok (fst (process_batch transfer self sched tasks worker_func description))
  = false.
Proof.
  intros Hfail.
  assert (Hne : tasks <> []).
  { destruct Hfail as [t [Hin _]]. intros ->. destruct Hin. }
  destruct (Z_lt_le_dec (num_workers self) 1) as [Hlt|Hle].
  { now rewrite process_batch_no_worker by assumption. }
  destruct (Z.eq_dec (num_workers self) 1) as [E1|E1].
  - rewrite process_batch_sequential by assumption. cbv zeta.
    destruct (first_failure worker_func tasks Hfail)
      as (pre & t & post & e & Hsplit & Hpre & Ht).
    set (total := List.length tasks). rewrite Hsplit.
    now rewrite (@sequential_loop_raise Task R worker_func pre t post e Hpre Ht).
  - rewrite process_batch_parallel by (assumption || lia). cbv zeta.
    match goal with
    | |- context [parallel_loop transfer worker_func ?ts ?acc ?tr0 false] =>
        pose proof (@parallel_loop_fails Task R transfer worker_func ts) as Hf;
        specialize (fun H => Hf H acc tr0 false);
        destruct (parallel_loop transfer worker_func ts acc tr0 false)
          as [[[out|e]|] tr']
    end; try reflexivity.
    simpl in Hf. apply Hf.
    destruct Hfail as [t [Hin Hbad]]. exists t. split; [|exact Hbad].
    apply (Permutation_in _ (Permutation_sym
             (imap_unordered_perm sched tasks
                (processes := num_workers self) ltac:(lia)))).
    exact Hin.
Qed.

Lemma process_batch_all_or_nothing transfer self sched tasks worker_func
      description :
  (1 <= num_workers self)%Z ->
  let run := process_batch transfer self sched tasks worker_func description in
  ends_ok (fst run) = forallb (fun t => is_ok (worker_func t)) tasks
  /\ (forall out, fst run = Ends (Ok out) ->
        List.length out = List.length tasks
        /\ advances (snd run) = List.length tasks
        /\ Permutation (attempted (snd run)) tasks).
Proof.
  intros Hw run.
  assert (Hcase : tasks = [] \/ tasks <> []).
  { destruct tasks; [left | right]; congruence. }
  destruct Hcase as [->|Hne].
  { subst run. simpl. split; [reflexivity|].
    intros out H. inversion H. repeat split. constructor. }
  assert (Hperm : Permutation (run_order self sched tasks) tasks).
  { unfold run_order. destruct (num_workers self =? 1)%Z; [reflexivity|].
    now apply imap_unordered_perm. }
  destruct (forallb (fun t => is_ok (worker_func t)) tasks) eqn:Hall.
  - rewrite (forallb_ok_perm worker_func (Permutation_sym Hperm)) in Hall.
    destruct (forallb_ok_succeed _ _ Hall) as [results Hres].
    assert (Hlen : List.length results = List.length tasks).
    { rewrite <- (Forall2_length Hres). now apply Permutation_length. }
    assert (Hrun : fst run = Ends (Ok results)
                   /\ advances (snd run) = List.length tasks
                   /\ attempted (snd run) = run_order self sched tasks).
    { subst run. unfold run_order in *.
      destruct (num_workers self =? 1)%Z eqn:E1.
      - apply Z.eqb_eq in E1.
        rewrite process_batch_sequential by assumption. cbv zeta.
        rewrite (sequential_loop_ok Hres). simpl.
        rewrite !attempted_app, !advances_app, attempted_calls, advances_calls.
        simpl. rewrite app_nil_r. repeat split; lia.
      - apply Z.eqb_neq in E1.
        rewrite process_batch_parallel by (assumption || lia). cbv zeta.
        rewrite (parallel_loop_ok transfer Hres). simpl.
        rewrite !attempted_app, !advances_app, attempted_completions,
          advances_completions.
        simpl. rewrite app_nil_r.
        rewrite (Permutation_length Hperm). repeat split; lia. }
    destruct Hrun as (H1 & H2 & H3). rewrite H1. split; [reflexivity|].
    intros out Hout. inversion Hout; subst out.
    repeat split; [exact Hlen | exact H2 | now rewrite H3].
  - apply forallb_ok_failure in Hall.
    pose proof (@process_batch_fails transfer self sched tasks worker_func
                  description Hall) as Hf.
    fold run in Hf. split; [exact Hf|].
    intros out Hout. rewrite Hout in Hf. discriminate.
Qed.

(** X12. A batch is all or nothing: with a worker count of one or more,
    [process_batch] returns a list exactly when the worker succeeds on
    every task, and then the list has one result per task, the progress
    advanced once per task and every task was run once. *)
Theorem X12_batch_succeeds_iff_every_task_succeeds :
  forall (transfer : Task -> exn -> crossing) (self : ParallelProcessor.t)
         (sched : list nat) (tasks : list Task)
         (worker_func : Task -> result R) (description : string),
    (1 <= num_workers self)%Z ->
    let run := process_batch transfer self sched tasks worker_func description in
    ends_ok (fst run) = forallb (fun t => is_ok (worker_func t)) tasks
    /\ (forall out, fst run = Ends (Ok out) ->
          List.length out = List.length tasks
          /\ advances (snd run) = List.length tasks
          /\ Permutation (attempted (snd run)) tasks).
Proof.
  intros transfer self sched tasks worker_func description Hw.
  exact (process_batch_all_or_nothing transfer self sched tasks worker_func
           description Hw).
Qed.

(** X13. Whatever the worker count, a call of [process_batch] that ends,
    with a list or with an exception, has left every [with] block it
    entered: the progress display and the pool are closed as often as they
    are opened, also when a task fails.  A call that waits for ever on a
    pool has left neither.  A pool is opened only for a non-empty batch
    with more than one worker, and completion is logged exactly when a
    non-empty batch returns its list. *)
Theorem X13_batch_closes_progress_and_pool :
  forall (transfer : Task -> exn -> crossing) (self : ParallelProcessor.t)
         (sched : list nat) (tasks : list Task)
         (worker_func : Task -> result R) (description : string),
    let run := process_batch transfer self sched tasks worker_func description in
    Trace.count (@Trace.is_progress_enter Task) (snd run)
    = Trace.count (@Trace.is_progress_exit Task) (snd run)
      + (if hangs (fst run) then 1 else 0)
    /\ Trace.count (@Trace.is_pool_enter Task) (snd run)
       = Trace.count (@Trace.is_pool_exit Task) (snd run)
         + (if hangs (fst run) then 1 else 0)
    /\ Trace.count (@Trace.is_pool_enter Task) (snd run)
       = (if negb (Trace.is_nil tasks) && (1 <? num_workers self)%Z then 1 else 0)
    /\ Trace.count (@Trace.is_log_complete Task) (snd run)
       = (if negb (Trace.is_nil tasks) && ends_ok (fst run) then 1 else 0).
Proof.
  intros transfer self sched tasks worker_func description run. subst run.
  assert (Hcase : tasks = [] \/ tasks <> []).
  { destruct tasks; [left | right]; congruence. }
  destruct Hcase as [->|Hne]; [repeat split|].
  assert (Hnil : Trace.is_nil tasks = false).
  { destruct tasks; [congruence | reflexivity]. }
  rewrite Hnil. simpl negb. cbv iota beta. simpl andb.
  assert (Ho1 : Trace.outside_loop (@Trace.is_progress_enter Task)) by (repeat split).
  assert (Ho2 : Trace.outside_loop (@Trace.is_progress_exit Task)) by (repeat split).
  assert (Ho3 : Trace.outside_loop (@Trace.is_pool_enter Task)) by (repeat split).
  assert (Ho4 : Trace.outside_loop (@Trace.is_pool_exit Task)) by (repeat split).
  assert (Ho5 : Trace.outside_loop (@Trace.is_log_complete Task)) by (repeat split).
  destruct (Z.eq_dec (num_workers self) 1) as [E1|E1].
  - rewrite process_batch_sequential by assumption. cbv zeta.
    assert (Hlt : (1 <? num_workers self)%Z = false) by (apply Z.ltb_ge; lia).
    rewrite Hlt.
    match goal with
    | |- context [sequential_loop ?w ?ts ?acc ?tr0] =>
        pose proof (sequential_loop_count w Ho1 ts acc tr0) as C1;
        pose proof (sequential_loop_count w Ho2 ts acc tr0) as C2;
        pose proof (sequential_loop_count w Ho3 ts acc tr0) as C3;
        pose proof (sequential_loop_count w Ho4 ts acc tr0) as C4;
        pose proof (sequential_loop_count w Ho5 ts acc tr0) as C5;
        destruct (sequential_loop w ts acc tr0) as [[out|e] tr']
    end;
      simpl in C1, C2, C3, C4, C5; simpl fst; simpl snd;
      rewrite !count_app, C1, C2, C3, C4, C5; repeat split.
  - destruct (Z_lt_le_dec (num_workers self) 1) as [Hlt|Hge].
    + rewrite process_batch_no_worker by assumption.
      assert (Hlt' : (1 <? num_workers self)%Z = false) by (apply Z.ltb_ge; lia).
      rewrite Hlt'. repeat split.
    + rewrite process_batch_parallel by (assumption || lia). cbv zeta.
      assert (Hlt' : (1 <? num_workers self)%Z = true) by (apply Z.ltb_lt; lia).
      rewrite Hlt'.
      match goal with
      | |- context [parallel_loop ?x ?w ?ts ?acc ?tr0 false] =>
          pose proof (parallel_loop_count x w Ho1 ts acc tr0 false) as C1;
          pose proof (parallel_loop_count x w Ho2 ts acc tr0 false) as C2;
          pose proof (parallel_loop_count x w Ho3 ts acc tr0 false) as C3;
          pose proof (parallel_loop_count x w Ho4 ts acc tr0 false) as C4;
          pose proof (parallel_loop_count x w Ho5 ts acc tr0 false) as C5;
          destruct (parallel_loop x w ts acc tr0 false) as [[[out|e]|] tr']
      end;
        simpl in C1, C2, C3, C4, C5; simpl fst; simpl snd;
        rewrite ?count_app, C1, C2, C3, C4, C5; repeat split.
Qed.

End ExecutorMore.

(** X12 at the batch [A, B, C], sequential and failing on [B]. *)
Lemma X12_batch_succeeds_iff_every_task_succeeds_witness :
  ends_ok (fst (ParallelProcessor.process_batch Repo.transfer
                  {| ParallelProcessor.num_workers := 1 |}
                  [] ["A"; "B"; "C"] Repo.demo_worker "Processing")) = false
  /\ ends_ok (fst (ParallelProcessor.process_batch Repo.transfer
                     {| ParallelProcessor.num_workers := 3 |}
                     [2; 1] ["A"; "B"; "C"] Repo.total_worker "Processing")) = true.
Proof.
  split.
  - rewrite (proj1 (@X12_batch_succeeds_iff_every_task_succeeds string string
                      Repo.transfer
                      {| ParallelProcessor.num_workers := 1 |} []
                      ["A"; "B"; "C"] Repo.demo_worker "Processing"
                      ltac:(simpl; lia))).
    reflexivity.
  - rewrite (proj1 (@X12_batch_succeeds_iff_every_task_succeeds string string
                      Repo.transfer
                      {| ParallelProcessor.num_workers := 3 |} [2; 1]
                      ["A"; "B"; "C"] Repo.total_worker "Processing"
                      ltac:(simpl; lia))).
    reflexivity.
Defined.

(** ** Batches of files *)

Section BatchFacts.
Variables Model Kwargs R : Type.
Variable process_single :
  Instance Model -> Path.t -> option Path.t -> Kwargs -> result R.
Variable transfer : batch_task Model Kwargs -> exn -> crossing.
Variable own_process_batch :
  Instance Model -> option (batch_method Model Kwargs R).
Implicit Types (self : Instance Model) (files : list Path.t)
         (output_dir : option Path.t) (kw : Kwargs).

Lemma batch_tasks_succeed self files output_dir kw (results : list R) :
  Forall2 (fun f r =>
             process_single self f (output_path_for output_dir f) kw = Ok r)
          files results ->
  ParallelProcessor.succeed_with (_process_single_task process_single)
    (map (fun f => (self, f, output_dir, kw)) files) results.
Proof.
  unfold ParallelProcessor.succeed_with.
  induction 1 as [|f r fs rs Hf _ IH]; simpl; constructor; assumption.
Qed.

Lemma batch_tasks_forallb self files output_dir kw :
  forallb (fun t => is_ok (_process_single_task process_single t))
          (map (fun f => (self, f, output_dir, kw)) files)
  = forallb (fun f => is_ok (process_single self f
                               (output_path_for output_dir f) kw)) files.
Proof. induction files as [|f fs IH]; simpl; [reflexivity | now rewrite IH]. Qed.

(** X8. With an effective worker count of one, [BaseProcessor.process_batch]
    on files that are all processed successfully returns the results of
    [process_single] in the order of the input files, each file processed
    with the output path [output_dir / name] (or none) and the same
    keyword arguments. *)
Theorem X8_process_batch_one_worker_in_input_order :
  forall (cfg : CreamConfig) (sched : list nat) (self : Instance Model)
         (files : list Path.t) (output_dir : option Path.t)
         (num_workers : option Z) (kw : Kwargs) (results : list R),
    workers_or num_workers (max_workers cfg) = 1%Z ->
    Forall2 (fun f r =>
               process_single self f (output_path_for output_dir f) kw = Ok r)
            files results ->
    fst (BaseProcessor_process_batch process_single transfer cfg sched self
           files output_dir num_workers kw) = Ends (Ok results).
Proof.
  intros cfg sched self files output_dir num_workers kw results Hw Hres.
  unfold BaseProcessor_process_batch. cbv zeta.
  pose proof (@batch_tasks_succeed self files output_dir kw results Hres) as Hs.
  destruct files as [|f fs].
  - inversion Hres. reflexivity.
  - rewrite process_batch_sequential by (simpl; congruence || exact Hw).
    cbv zeta. rewrite (sequential_loop_ok Hs). reflexivity.
Qed.

(** X9. How [BaseProcessor.process_batch] chooses the worker count: an
    omitted count and a count of zero both mean [config.max_workers]; a
    negative count is passed on as it is, so that a non-empty batch raises
    [ValueError] before any file is processed; an empty batch returns the
    empty list whatever the count. *)
Theorem X9_process_batch_worker_count :
  forall (cfg : CreamConfig) (sched : list nat) (self : Instance Model)
         (files : list Path.t) (output_dir : option Path.t) (kw : Kwargs),
    BaseProcessor_process_batch process_single transfer cfg sched self files
      output_dir None kw
    = BaseProcessor_process_batch process_single transfer cfg sched self files
        output_dir (Some (max_workers cfg)) kw
    /\ BaseProcessor_process_batch process_single transfer cfg sched self files
         output_dir (Some 0%Z) kw
       = BaseProcessor_process_batch process_single transfer cfg sched self files
           output_dir (Some (max_workers cfg)) kw
    /\ (forall n, (n < 0)%Z -> files <> [] ->
          fst (BaseProcessor_process_batch process_single transfer cfg sched self
                 files output_dir (Some n) kw)
          = Ends (Raise (PyError "ValueError"
                           "Number of processes must be at least 1"))
          /\ ParallelProcessor.attempted
               (snd (BaseProcessor_process_batch process_single transfer cfg sched
                       self files output_dir (Some n) kw)) = [])
    /\ (forall num_workers,
          BaseProcessor_process_batch process_single transfer cfg sched self []
            output_dir num_workers kw = (Ends (Ok []), [])).
Proof.
  intros cfg sched self files output_dir kw.
  assert (Hmw : workers_or (Some (max_workers cfg)) (max_workers cfg)
                = max_workers cfg).
  { unfold workers_or. destruct (max_workers cfg =? 0)%Z; reflexivity. }
  unfold BaseProcessor_process_batch. cbv zeta. rewrite Hmw.
  split; [reflexivity|]. split; [reflexivity|]. split.
  - intros n Hn Hne.
    assert (Hw : workers_or (Some n) (max_workers cfg) = n).
    { unfold workers_or. destruct (n =? 0)%Z eqn:E; [|reflexivity].
      apply Z.eqb_eq in E. lia. }
    rewrite Hw. rewrite process_batch_no_worker.
    + split; reflexivity.
    + destruct files; [congruence | discriminate].
    + simpl. lia.
  - intros num_workers. reflexivity.
Qed.

(** X10. The path of the command line never asks for an invalid worker
    count: after [set_parallel_config] with any [--workers] value, a batch
    started through an interface with [num_workers = config.max_workers],
    on a processor whose class inherits [process_batch] from
    [BaseProcessor], runs with [max(1, workers)] workers, and it returns a
    list exactly when every file is processed successfully. *)
Theorem X10_cli_worker_count_is_valid :
  forall (cfg : CreamConfig) (workers : Z) (bars : option bool)
         (sched : list nat) (itf : ProcessorInterface Model)
         (files : list Path.t) (output_dir : option Path.t) (kw : Kwargs),
    own_process_batch (processor itf) = None ->
    let cfg' := CreamConfigOps.set_parallel_config cfg (Some workers) bars in
    let run := interface_process_batch process_single transfer own_process_batch
                 cfg' sched itf files output_dir (Some (max_workers cfg')) kw in
    run = ParallelProcessor.process_batch transfer
            {| ParallelProcessor.num_workers := Z.max 1 workers |} sched
            (map (fun f => (processor itf, f, output_dir, kw)) files)
            (_process_single_task process_single)
            ("Processing with " ++ inst_class (processor itf))%string
    /\ ends_ok (fst run)
       = forallb (fun f => is_ok (process_single (processor itf) f
                                    (output_path_for output_dir f) kw)) files.
Proof.
  intros cfg workers bars sched itf files output_dir kw Hown cfg' run.
  assert (Hmw : max_workers cfg' = Z.max 1 workers).
  { subst cfg'. destruct bars; reflexivity. }
  assert (Hw : workers_or (Some (max_workers cfg')) (max_workers cfg')
               = Z.max 1 workers).
  { unfold workers_or. rewrite Hmw.
    destruct (Z.max 1 workers =? 0)%Z eqn:E; [|reflexivity].
    apply Z.eqb_eq in E. lia. }
  assert (Hrun : run = ParallelProcessor.process_batch transfer
            {| ParallelProcessor.num_workers := Z.max 1 workers |} sched
            (map (fun f => (processor itf, f, output_dir, kw)) files)
            (_process_single_task process_single)
            ("Processing with " ++ inst_class (processor itf))%string).
  { subst run.
    unfold interface_process_batch, processor_process_batch. rewrite Hown.
    unfold BaseProcessor_process_batch. cbv zeta. now rewrite Hw. }
  split; [exact Hrun|].
  rewrite Hrun, <- batch_tasks_forallb.
  apply (process_batch_all_or_nothing transfer
           {| ParallelProcessor.num_workers := Z.max 1 workers |} sched
           (map (fun f => (processor itf, f, output_dir, kw)) files)
           (_process_single_task process_single)
           ("Processing with " ++ inst_class (processor itf))%string).
  simpl. lia.
Qed.

End BatchFacts.

(** X8 at two audio files and an output directory. *)
Lemma X8_process_batch_one_worker_in_input_order_witness :
  fst (BaseProcessor_process_batch BatchExamples.process_single
         BatchExamples.transfer config []
         BatchExamples.resampler BatchExamples.files (Some "out") None
         (Dict.empty string))
  = Ends (Ok ["out/a.wav"; "out/b.FLAC"]).
Proof.
  apply (@X8_process_batch_one_worker_in_input_order Repo.Model (Dict.t string)
           Path.t BatchExamples.process_single BatchExamples.transfer config []
           BatchExamples.resampler BatchExamples.files (Some "out") None
           (Dict.empty string) ["out/a.wav"; "out/b.FLAC"]).
  - reflexivity.
  - repeat constructor.
Defined.

(** X10 at [--workers 0] and two audio files given to the resampler. *)
Lemma X10_cli_worker_count_is_valid_witness :
  ends_ok
    (fst (interface_process_batch BatchExamples.process_single
            BatchExamples.transfer BatchExamples.own_process_batch
            (CreamConfigOps.set_parallel_config config (Some 0%Z) None) []
            {| method := "audio_resampler"; processor := BatchExamples.resampler |}
            BatchExamples.files (Some "out")
            (Some (max_workers
                     (CreamConfigOps.set_parallel_config config (Some 0%Z) None)))
            (Dict.empty string)))
  = true.
Proof.
  rewrite (proj2 (@X10_cli_worker_count_is_valid Repo.Model (Dict.t string)
                    Path.t BatchExamples.process_single BatchExamples.transfer
                    BatchExamples.own_process_batch config 0%Z None []
                    {| method := "audio_resampler";
                       processor := BatchExamples.resampler |}
                    BatchExamples.files (Some "out") (Dict.empty string)
                    eq_refl)).
  reflexivity.
Defined.

(** X9 at a request for minus one worker. *)
Lemma X9_process_batch_worker_count_witness :
  fst (BaseProcessor_process_batch BatchExamples.process_single
         BatchExamples.transfer config []
         BatchExamples.resampler BatchExamples.files None (Some (-1)%Z)
         (Dict.empty string))
  = Ends (Raise (PyError "ValueError" "Number of processes must be at least 1")).
Proof.
  destruct (@X9_process_batch_worker_count Repo.Model (Dict.t string) Path.t
              BatchExamples.process_single BatchExamples.transfer config []
              BatchExamples.resampler
              BatchExamples.files None (Dict.empty string)) as (_ & _ & H & _).
  exact (proj1 (H (-1)%Z ltac:(lia) ltac:(discriminate))).
Defined.

(** ** Paths, continued *)

(** The final component of a path holds no separator. *)
Lemma name_has_no_slash (p : Path.t) :
  PyStr.contains_char Path.slash (Path.name p) = false.
Proof.
  destruct (PyStr.contains_char Path.slash p) eqn:E.
  - destruct (rfind_decompose _ _ E) as (a & n & -> & Hn).
    now rewrite (name_after_slash a _ Hn).
  - now rewrite (name_without_slash _ E).
Qed.

Lemma ends_with_char_split (c : ascii) (d : string) :
  StrOps.ends_with_char c d = true ->
  exists a, d = (a ++ String c EmptyString)%string.
Proof.
  induction d as [|x r IH]; [discriminate|].
  destruct r as [|y r'].
  - simpl. intros H. apply Ascii.eqb_eq in H. subst x. now exists EmptyString.
  - intros H. change (StrOps.ends_with_char c (String y r') = true) in H.
    destruct (IH H) as [a Ha]. exists (String x a). simpl. now rewrite <- Ha.
Qed.

Lemma name_joinpath (d : Path.t) (n : string) :
  n <> EmptyString -> n <> "."%string ->
  PyStr.contains_char Path.slash n = false ->
  Path.name (StrOps.joinpath d n) = n.
Proof.
  intros H1 H2 Hn. unfold StrOps.joinpath.
  assert (E1 : StrOps.is_empty n = false).
  { destruct n; [congruence | reflexivity]. }
  assert (E2 : String.eqb n "." = false) by now apply String.eqb_neq.
  rewrite E1, E2. simpl.
  destruct (String.eqb d "."); [now apply name_without_slash|].
  destruct (StrOps.ends_with_char Path.slash d) eqn:E.
  - destruct (ends_with_char_split _ _ E) as [a ->].
    rewrite append_assoc. simpl. now apply name_after_slash.
  - now apply name_after_slash.
Qed.

(** X11. The output path of a batch task keeps the file name, and with it
    the extension, of the input and nothing of its directory: inputs with
    the same name in different directories get the same output path.
    Without an output directory there is no output path. *)
Theorem X11_batch_output_path_keeps_name :
  forall (d : Path.t) (p : Path.t),
    Path.name p <> EmptyString ->
    Path.name p <> "."%string ->
    (exists q, output_path_for (Some d) p = Some q
               /\ Path.name q = Path.name p
               /\ Path.suffix q = Path.suffix p)
    /\ (forall p', Path.name p' = Path.name p ->
          output_path_for (Some d) p' = output_path_for (Some d) p)
    /\ output_path_for None p = None.
Proof.
  intros d p H1 H2. split; [|split; [|reflexivity]].
  - exists (StrOps.joinpath d (Path.name p)). split; [reflexivity|].
    assert (Hn : Path.name (StrOps.joinpath d (Path.name p)) = Path.name p).
    { apply name_joinpath; try assumption. apply name_has_no_slash. }
    split; [exact Hn|]. unfold Path.suffix. now rewrite Hn.
  - intros p' Hp'. unfold output_path_for. now rewrite Hp'.
Qed.

(** X11 at two files named alike. *)
Lemma X11_batch_output_path_keeps_name_witness :
  output_path_for (Some "out") "a/take.wav" = Some "out/take.wav"
  /\ output_path_for (Some "out") "b/take.wav"
     = output_path_for (Some "out") "a/take.wav".
Proof.
  destruct (@X11_batch_output_path_keeps_name "out" "a/take.wav"
              ltac:(discriminate) ltac:(discriminate)) as (_ & H & _).
  split; [reflexivity | exact (H "b/take.wav" eq_refl)].
Defined.

(** ** The registry and the interfaces *)

Section RegistryMore.
Variables Model Env : Type.
Implicit Types (reg : ProcessorRegistry Model Env) (o base : pyobj Model Env)
         (w : World Env).

Lemma contains_set (V : Type) (k k0 : string) (v0 : V) (d : Dict.t V) :
  Dict.contains k (Dict.set k0 v0 d) = String.eqb k k0 || Dict.contains k d.
Proof.
  apply eq_true_iff_eq.
  rewrite orb_true_iff, !contains_keys, keys_set_in, String.eqb_eq. tauto.
Qed.

Lemma list_by_base_filter reg base :
  Dict.wf (_processors reg) ->
  list_processors_by_base reg base
  = filter (satisfies reg base) (list_processors reg).
Proof.
  intros Hwf.
  unfold list_processors_by_base, list_processors, Dict.items, Dict.keys.
  rewrite by_base_fold. simpl.
  apply map_fst_filter. intros [k v] Hin. simpl.
  unfold satisfies. rewrite (wf_in_get _ _ Hwf Hin). reflexivity.
Qed.

Lemma filter_id_iff (A : Type) (f : A -> bool) (l : list A) :
  filter f l = l <-> forall x, In x l -> f x = true.
Proof.
  induction l as [|a r IH]; simpl.
  - split; [intros _ x [] | reflexivity].
  - destruct (f a) eqn:E.
    + split.
      * intros H x [<-|Hx]; [exact E|]. apply IH; [congruence | exact Hx].
      * intros H. f_equal. apply IH. intros x Hx. apply H. now right.
    + split.
      * intros H. exfalso.
        pose proof (filter_length_le f r) as Hl. rewrite H in Hl. simpl in Hl. lia.
      * intros H. specialize (H a (or_introl eq_refl)). congruence.
Qed.

(** X14. Registration and creation compose: right after
    [register(name, cls)], [create(name)] is the call of [cls]; [create]
    of every other registered name is as before; a new name is listed
    last, after the names registered earlier. *)
Theorem X14_register_then_create :
  forall (reg : ProcessorRegistry Model Env) (name : string)
         (cls : pyobj Model Env) (w : World Env),
    create (register reg name cls) name w = call cls w
    /\ (forall other,
          other <> name ->
          Dict.contains other (_processors reg) = true ->
          create (register reg name cls) other w = create reg other w)
    /\ (Dict.contains name (_processors reg) = false ->
          list_processors (register reg name cls) = list_processors reg ++ [name]).
Proof.
  intros reg name cls w. split; [|split].
  - unfold create, register. simpl.
    rewrite (get_some_contains _ _ (get_set_same name cls (_processors reg))).
    simpl. now rewrite get_set_same.
  - intros other Hne Hc. unfold create, register. simpl.
    rewrite contains_set, Hc, orb_true_r. simpl.
    now rewrite get_set_other.
  - intros Hc. unfold list_processors, register. simpl.
    now rewrite keys_set, Hc.
Qed.

(** X15. [list_all_methods] of the interfaces lists every registered
    name, whatever the capability of its class: it contains the names
    [list_processors_by_base] returns, and the two lists are the same only
    when every registered class passes the capability test. *)
Theorem X15_list_all_methods_is_unfiltered :
  forall (reg : ProcessorRegistry Model Env) (base : pyobj Model Env),
    Dict.wf (_processors reg) ->
    (forall name, In name (list_all_methods reg)
                  <-> Dict.contains name (_processors reg) = true)
    /\ (forall name, In name (list_processors_by_base reg base) ->
          In name (list_all_methods reg))
    /\ (list_processors_by_base reg base = list_all_methods reg
        <-> forall name, In name (list_processors reg) ->
                         satisfies reg base name = true).
Proof.
  intros reg base Hwf. unfold list_all_methods.
  rewrite (@list_by_base_filter reg base Hwf). split; [|split].
  - intros name. unfold list_processors. symmetry. apply contains_keys.
  - intros name H. apply filter_In in H. tauto.
  - apply filter_id_iff.
Qed.

(** X16. The interfaces do not look at the capability of the processor:
    [AudioProcessorInterface(method)] and [TextProcessorInterface(method)]
    do the same; for a method registered with any class whose
    construction succeeds they hold the new instance, and for a method
    that is not registered they raise the [ValidationError] of [create]. *)
Theorem X16_interfaces_ignore_capability :
  forall (reg : ProcessorRegistry Model Env) (m : string) (w : World Env),
    AudioProcessorInterface_init reg m w = TextProcessorInterface_init reg m w
    /\ (forall c i w',
          Dict.get m (_processors reg) = Some (PClass c) ->
          instantiate c w = (Ok i, w') ->
          AudioProcessorInterface_init reg m w
          = (Ok {| method := m; processor := i |}, w'))
    /\ (Dict.contains m (_processors reg) = false ->
          AudioProcessorInterface_init reg m w
          = (Raise (ValidationError (not_found_message m (list_processors reg))),
             w)).
Proof.
  intros reg m w. split; [reflexivity|]. split.
  - intros c i w' Hg Hi.
    unfold AudioProcessorInterface_init, bind, create.
    rewrite (get_some_contains _ _ Hg), Hg. simpl. now rewrite Hi.
  - intros Hc. unfold AudioProcessorInterface_init, bind, create.
    now rewrite Hc.
Qed.

End RegistryMore.

(** X14 at one more registration in the registry of the repository. *)
Lemma X14_register_then_create_witness :
  create (register Repo.registry "vad" (PClass Repo.VAD_FSMN)) "text_normalizer"
         (Repo.world Repo.libs_ok)
  = create Repo.registry "text_normalizer" (Repo.world Repo.libs_ok)
  /\ list_processors (register Repo.registry "vad" (PClass Repo.VAD_FSMN))
     = ["audio_resampler"; "text_normalizer"; "speech_vad_fsmn"; "vad"].
Proof.
  destruct (@X14_register_then_create Repo.Model Repo.Libs Repo.registry "vad"
              (PClass Repo.VAD_FSMN) (Repo.world Repo.libs_ok)) as (_ & H1 & H2).
  split.
  - apply H1; [discriminate | reflexivity].
  - rewrite (H2 eq_refl). reflexivity.
Defined.

(** X15 at the registry of the repository, which holds a text method. *)
Lemma X15_list_all_methods_is_unfiltered_witness :
  In "text_normalizer" (list_all_methods Repo.registry)
  /\ ~ In "text_normalizer"
        (list_processors_by_base Repo.registry (PClass Repo.BaseAudioProcessor)).
Proof.
  assert (Hwf : Dict.wf (_processors Repo.registry)).
  { unfold Repo.registry. repeat apply register_wf. apply new_registry_wf. }
  destruct (@X15_list_all_methods_is_unfiltered Repo.Model Repo.Libs
              Repo.registry (PClass Repo.BaseAudioProcessor) Hwf) as (H & _).
  split.
  - apply H. reflexivity.
  - simpl. intros [Hx|[]]. discriminate.
Defined.

(** X16 at an audio interface made for the text normalizer. *)
Lemma X16_interfaces_ignore_capability_witness :
  issubclass (PClass Repo.TextNormalizer) (PClass Repo.BaseAudioProcessor) = Ok false
  /\ fst (AudioProcessorInterface_init Repo.registry "text_normalizer"
            (Repo.world Repo.libs_ok))
     = Ok {| method := "text_normalizer";
             processor := {| inst_class := "TextNormalizer";
                             inst_model := Some "ZhNormalizer" |} |}.
Proof.
  split; [reflexivity|].
  destruct (@X16_interfaces_ignore_capability Repo.Model Repo.Libs Repo.registry
              "text_normalizer" (Repo.world Repo.libs_ok)) as (_ & H & _).
  rewrite (H Repo.TextNormalizer _ _ eq_refl eq_refl). reflexivity.
Defined.

(** ** Environment variables *)

Section SetEnvFacts.

Lemma not_in_keys_get (V : Type) (k : string) (d : Dict.t V) :
  ~ In k (Dict.keys d) -> Dict.get k d = None.
Proof.
  intros H. apply contains_false_get.
  destruct (Dict.contains k d) eqn:E; [|reflexivity].
  apply contains_keys in E. contradiction.
Qed.

Lemma contains_true_get (V : Type) (k : string) (d : Dict.t V) :
  Dict.contains k d = true -> exists v, Dict.get k d = Some v.
Proof.
  induction d as [|[k' v'] r IH]; simpl; [discriminate|].
  destruct (String.eqb k' k); simpl; [now exists v' | exact IH].
Qed.

Lemma setitem_legal (k v : string) (env : OsEnviron.t) :
  OsEnviron.legal_name k = true ->
  OsEnviron.legal_value v = true ->
  OsEnviron.setitem k v env = Ok (Dict.set k v env).
Proof.
  unfold OsEnviron.legal_name, OsEnviron.legal_value, OsEnviron.setitem.
  intros Hk Hv.
  apply andb_true_iff in Hk. destruct Hk as [Hk H3].
  apply andb_true_iff in Hk. destruct Hk as [H1 H2].
  apply negb_true_iff in H1, H2, H3, Hv.
  now rewrite H1, H2, H3, Hv.
Qed.

Lemma with_items_get (items : list (string * string)) :
  NoDup (map fst items) ->
  forall (env : OsEnviron.t) k,
    Dict.get k (SetEnv.with_items items env)
    = match Dict.get k items with
      | Some v => Some v
      | None => Dict.get k env
      end.
Proof.
  unfold SetEnv.with_items.
  induction items as [|[k0 v0] r IH]; intros Hnd env k; simpl; [reflexivity|].
  inversion Hnd as [|? ? Hnotin Hnd']; subst.
  rewrite (IH Hnd'). destruct (String.eqb k0 k) eqn:E.
  - apply String.eqb_eq in E. subst k0.
    rewrite (not_in_keys_get (V := string) k r Hnotin).
    apply get_set_same.
  - destruct (Dict.get k r); [reflexivity|].
    apply get_set_other. intros ->. now rewrite String.eqb_refl in E.
Qed.

Lemma with_items_wf (items : list (string * string)) :
  forall env : OsEnviron.t,
    Dict.wf env -> Dict.wf (SetEnv.with_items items env).
Proof.
  unfold SetEnv.with_items.
  induction items as [|[k0 v0] r IH]; intros env H; simpl; [exact H|].
  apply IH. now apply set_wf.
Qed.

Lemma restore_old_legal (items : list (string * string)) :
  SetEnv.legal_items items ->
  forall env, SetEnv.restore_old items env = (Ok tt, SetEnv.with_items items env).
Proof.
  unfold SetEnv.with_items.
  induction 1 as [|[k v] r [Hk Hv] _ IH]; intros env; simpl; [reflexivity|].
  simpl in Hk, Hv. rewrite (@setitem_legal k v env Hk Hv). apply IH.
Qed.

Lemma pop_keys_subset (k k' : string) (env : OsEnviron.t) :
  In k' (Dict.keys (OsEnviron.pop k env)) -> In k' (Dict.keys env).
Proof.
  induction env as [|[k0 v0] r IH]; simpl; [tauto|].
  destruct (String.eqb k0 k); simpl; [now right|].
  intros [H|H]; [now left | right; now apply IH].
Qed.

Lemma pop_wf (k : string) (env : OsEnviron.t) :
  Dict.wf env -> Dict.wf (OsEnviron.pop k env).
Proof.
  unfold Dict.wf. induction env as [|[k0 v0] r IH]; simpl; intros H; [exact H|].
  inversion H as [|? ? Hnotin Hnd]; subst.
  destruct (String.eqb k0 k); simpl; [exact Hnd|].
  constructor; [|now apply IH].
  intros Hin. apply Hnotin. now apply (pop_keys_subset k).
Qed.

Lemma get_pop_same (k : string) (env : OsEnviron.t) :
  Dict.wf env -> Dict.get k (OsEnviron.pop k env) = None.
Proof.
  unfold Dict.wf. induction env as [|[k0 v0] r IH]; simpl; intros H; [reflexivity|].
  inversion H as [|? ? Hnotin Hnd]; subst.
  destruct (String.eqb k0 k) eqn:E; simpl.
  - apply String.eqb_eq in E. subst k0. now apply not_in_keys_get.
  - rewrite E. now apply IH.
Qed.

Lemma get_pop_other (k k' : string) (env : OsEnviron.t) :
  k' <> k -> Dict.get k' (OsEnviron.pop k env) = Dict.get k' env.
Proof.
  intros Hne. induction env as [|[k0 v0] r IH]; simpl; [reflexivity|].
  destruct (String.eqb k0 k) eqn:E; simpl.
  - apply String.eqb_eq in E. subst k0.
    destruct (String.eqb k k') eqn:E'; [|reflexivity].
    apply String.eqb_eq in E'. congruence.
  - now rewrite IH.
Qed.

Lemma delete_new_get (to_delete : list string) :
  forall (env : OsEnviron.t) k,
    Dict.wf env ->
    (In k to_delete -> Dict.get k (SetEnv.delete_new to_delete env) = None)
    /\ (~ In k to_delete ->
        Dict.get k (SetEnv.delete_new to_delete env) = Dict.get k env).
Proof.
  induction to_delete as [|k0 r IH]; intros env k Hwf; simpl.
  - split; [tauto | reflexivity].
  - destruct (IH (OsEnviron.pop k0 env) k (@pop_wf k0 env Hwf)) as [IH1 IH2].
    split.
    + intros [->|Hin].
      * destruct (in_dec string_dec k r) as [Hr|Hr]; [now apply IH1|].
        rewrite (IH2 Hr). now apply get_pop_same.
      * now apply IH1.
    + intros Hn. rewrite IH2 by tauto. apply get_pop_other. intros ->. tauto.
Qed.

Lemma enter_legal (items : list (string * string)) :
  SetEnv.legal_items items ->
  NoDup (map fst items) ->
  forall (old : Dict.t string) (del : list string) (env : OsEnviron.t),
    Dict.wf old ->
    (forall k, In k (map fst items) -> Dict.get k old = None /\ ~ In k del) ->
    exists old' del',
      SetEnv.enter items old del env
      = (Ok (old', del'), SetEnv.with_items items env)
      /\ Dict.wf old'
      /\ (forall k, In k (map fst items) ->
            Dict.get k old' = Dict.get k env
            /\ (In k del' <-> Dict.get k env = None))
      /\ (forall k, ~ In k (map fst items) ->
            Dict.get k old' = Dict.get k old /\ (In k del' <-> In k del)).
Proof.
  induction 1 as [|[k v] r [Hk Hv] _ IH]; intros Hnd old del env Hwf Hpre.
  - exists old, del. simpl. repeat split; tauto.
  - simpl in Hk, Hv. inversion Hnd as [|? ? Hnotin Hnd']; subst.
    destruct (Hpre k (or_introl eq_refl)) as [Hko Hkd].
    assert (Hne : forall k', In k' (map fst r) -> k' <> k).
    { intros k' Hin ->. contradiction. }
    cbn [SetEnv.enter]. rewrite (@setitem_legal k v env Hk Hv).
    set (upd := if Dict.contains k env
                then match Dict.get k env with
                     | Some o => (Dict.set k o old, del)
                     | None => (old, del)
                     end
                else (old, del ++ [k])).
    assert (Hupd : Dict.wf (fst upd)
                   /\ (forall k', k' <> k ->
                         Dict.get k' (fst upd) = Dict.get k' old
                         /\ (In k' (snd upd) <-> In k' del))
                   /\ Dict.get k (fst upd) = Dict.get k env
                   /\ (In k (snd upd) <-> Dict.get k env = None)).
    { subst upd. destruct (Dict.contains k env) eqn:Ec.
      - destruct (contains_true_get _ _ Ec) as [o Ho]. rewrite Ho. simpl.
        split; [now apply set_wf|]. split; [|split].
        + intros k' Hk'. split; [now apply get_set_other | tauto].
        + apply get_set_same.
        + split; [contradiction | discriminate].
      - rewrite (contains_false_get _ _ Ec). simpl.
        split; [exact Hwf|]. split; [|split].
        + intros k' Hk'. split; [reflexivity|]. rewrite in_app_iff. simpl.
          intuition congruence.
        + exact Hko.
        + split; [reflexivity|]. intros _. apply in_or_app. right. now left. }
    destruct upd as [old1 del1]. simpl in Hupd.
    destruct Hupd as (Hwf1 & Hother & Hsame & Hdel).
    destruct (IH Hnd' old1 del1 (Dict.set k v env) Hwf1) as (old' & del' & He & Hw' & Hin & Hout).
    { intros k' Hk'. destruct (Hother k' (Hne k' Hk')) as [H1 H2].
      destruct (Hpre k' (or_intror Hk')) as [H3 H4].
      split; [congruence | tauto]. }
    exists old', del'. split; [exact He|]. split; [exact Hw'|]. split.
    + intros k' Hk'. simpl in Hk'. destruct Hk' as [<-|Hk'].
      * destruct (Hout k Hnotin) as [H1 H2]. split; [congruence | tauto].
      * destruct (Hin k' Hk') as [H1 H2].
        rewrite get_set_other in H1, H2 by (now apply Hne).
        split; assumption.
    + intros k' Hk'. simpl in Hk'.
      assert (Hk1 : k' <> k) by (intros ->; tauto).
      assert (Hk2 : ~ In k' (map fst r)) by tauto.
      destruct (Hout k' Hk2) as [H1 H2]. destruct (Hother k' Hk1) as [H3 H4].
      split; [congruence | tauto].
Qed.

Lemma environ_str_keys (environ : Dict.t SetEnv.value) :
  map fst (SetEnv.environ_str environ) = Dict.keys environ.
Proof.
  unfold SetEnv.environ_str, Dict.keys. rewrite map_map. reflexivity.
Qed.

Lemma environ_str_get (environ : Dict.t SetEnv.value) (k : string) :
  Dict.get k (SetEnv.environ_str environ)
  = option_map SetEnv.to_env_string (Dict.get k environ).
Proof.
  induction environ as [|[k0 v0] r IH]; simpl; [reflexivity|].
  destruct (String.eqb k0 k); [reflexivity | exact IH].
Qed.

End SetEnvFacts.

(** X18. [set_env] gives back the environment: when the block is left,
    by a return or by an exception of its body, every variable named in
    the call has the value it had before the block, or is absent if it was
    absent, whatever the body did to it; the other variables are as the
    body left them. Inside the block each named variable holds the string
    of the value given.  The outcome of the block is the outcome of its
    body. *)
Theorem X18_set_env_restores_environment :
  forall (A : Type) (environ : Dict.t SetEnv.value)
         (body : OsEnviron.t -> result A * OsEnviron.t) (env : OsEnviron.t),
    Dict.wf env ->
    SetEnv.legal_values env ->
    Dict.wf environ ->
    SetEnv.legal_items (SetEnv.environ_str environ) ->
    (forall e, Dict.wf e -> Dict.wf (snd (body e))) ->
    let inside := SetEnv.entered environ env in
    let out := SetEnv.set_env environ body env in
    fst out = fst (body inside)
    /\ (forall k, In k (Dict.keys environ) ->
          Dict.get k (snd out) = Dict.get k env)
    /\ (forall k, ~ In k (Dict.keys environ) ->
          Dict.get k (snd out) = Dict.get k (snd (body inside)))
    /\ (forall k v, Dict.get k environ = Some v ->
          Dict.get k inside = Some (SetEnv.to_env_string v))
    /\ (forall k, ~ In k (Dict.keys environ) ->
          Dict.get k inside = Dict.get k env).
Proof.
  intros A environ body env Hwf Hlegal Hwfe Hitems Hbody inside out.
  assert (Hnd : NoDup (map fst (SetEnv.environ_str environ))).
  { rewrite environ_str_keys. exact Hwfe. }
  destruct (@enter_legal (SetEnv.environ_str environ) Hitems Hnd
              (Dict.empty string) [] env)
    as (old & del & He & Hwo & Hin & Hout).
  { constructor. }
  { intros k _. split; [reflexivity | tauto]. }
  rewrite environ_str_keys in Hin, Hout.
  assert (Hold : SetEnv.legal_items (Dict.items old)).
  { unfold SetEnv.legal_items, Dict.items. apply Forall_forall.
    intros [k v] Hkv. simpl.
    pose proof (wf_in_get _ _ Hwo Hkv) as Hg.
    destruct (in_dec string_dec k (Dict.keys environ)) as [Hk|Hk].
    - destruct (Hin k Hk) as [H1 _]. split.
      + rewrite <- environ_str_keys in Hk. apply in_map_iff in Hk.
        destruct Hk as [[k' v'] [Heq Hk]]. simpl in Heq. subst k'.
        unfold SetEnv.legal_items in Hitems. rewrite Forall_forall in Hitems.
        exact (proj1 (Hitems _ Hk)).
      + apply (Hlegal k). congruence.
    - destruct (Hout k Hk) as [H1 _]. rewrite Hg in H1. discriminate. }
  assert (Hwi : Dict.wf inside).
  { subst inside. unfold SetEnv.entered. now apply with_items_wf. }
  assert (Hinside : forall k,
             Dict.get k inside
             = match Dict.get k (SetEnv.environ_str environ) with
               | Some v => Some v
               | None => Dict.get k env
               end).
  { intros k. subst inside. unfold SetEnv.entered. now apply with_items_get. }
  assert (Hrun : out = (fst (body inside),
                        SetEnv.delete_new del
                          (SetEnv.with_items (Dict.items old) (snd (body inside))))).
  { subst out. unfold SetEnv.set_env. unfold Dict.items at 1. rewrite He.
    fold (SetEnv.entered environ env). fold inside.
    destruct (body inside) as [r env2]. rewrite (@restore_old_legal (Dict.items old) Hold).
    reflexivity. }
  rewrite Hrun. simpl fst. simpl snd.
  assert (Hw3 : Dict.wf (SetEnv.with_items (Dict.items old) (snd (body inside)))).
  { apply with_items_wf. now apply Hbody. }
  assert (Hrest : forall k,
             Dict.get k (SetEnv.with_items (Dict.items old) (snd (body inside)))
             = match Dict.get k old with
               | Some v => Some v
               | None => Dict.get k (snd (body inside))
               end).
  { intros k. apply with_items_get. exact Hwo. }
  split; [reflexivity|]. split; [|split; [|split]].
  - intros k Hk. destruct (Hin k Hk) as [H1 H2].
    destruct (@delete_new_get del _ k Hw3) as [D1 D2].
    destruct (Dict.get k env) as [v|] eqn:Eg.
    + rewrite D2 by (intros Hd; apply H2 in Hd; discriminate).
      now rewrite Hrest, H1.
    + apply D1. now apply H2.
  - intros k Hk. destruct (Hout k Hk) as [H1 H2].
    destruct (@delete_new_get del _ k Hw3) as [_ D2].
    rewrite D2 by (intros Hd; apply H2 in Hd; destruct Hd).
    rewrite Hrest, H1. reflexivity.
  - intros k v Hg. rewrite Hinside, environ_str_get, Hg. reflexivity.
  - intros k Hk. rewrite Hinside, environ_str_get.
    now rewrite (not_in_keys_get (V := SetEnv.value) k environ Hk).
Qed.

(** X18 at a block whose body changes a named variable, sets another and
    fails. *)
Lemma X18_set_env_restores_environment_witness :
  let out := SetEnv.set_env SetEnvExamples.environ SetEnvExamples.body
               SetEnvExamples.os_environ in
  fst out = Raise (AudioProcessingError "model download failed")
  /\ Dict.get "OMP_NUM_THREADS" (snd out) = Some "8"
  /\ Dict.get "MODELSCOPE_CACHE" (snd out) = None
  /\ Dict.get "TMP" (snd out) = Some "/tmp".
Proof.
  assert (Hwf : Dict.wf SetEnvExamples.os_environ).
  { repeat constructor; simpl; intuition discriminate. }
  assert (Hlegal : SetEnv.legal_values SetEnvExamples.os_environ).
  { intros k v H. unfold SetEnvExamples.os_environ in H. cbn [Dict.get] in H.
    destruct (String.eqb "HOME" k); [inversion H; reflexivity|].
    destruct (String.eqb "OMP_NUM_THREADS" k); [inversion H; reflexivity|].
    discriminate. }
  assert (Hwfe : Dict.wf SetEnvExamples.environ).
  { repeat constructor; simpl; intuition discriminate. }
  assert (Hitems : SetEnv.legal_items (SetEnv.environ_str SetEnvExamples.environ)).
  { repeat constructor. }
  assert (Hbody : forall e, Dict.wf e -> Dict.wf (snd (SetEnvExamples.body e))).
  { intros e He. simpl. now repeat apply set_wf. }
  destruct (@X18_set_env_restores_environment unit SetEnvExamples.environ
              SetEnvExamples.body SetEnvExamples.os_environ
              Hwf Hlegal Hwfe Hitems Hbody) as (H1 & H2 & H3 & _).
  cbv zeta. split; [exact H1|]. split; [|split].
  - rewrite H2; [reflexivity | simpl; tauto].
  - rewrite H2; [reflexivity | simpl; tauto].
  - rewrite H3; [reflexivity|]. simpl. intuition discriminate.
Defined.

(** ** The interfaces, continued *)

Section InterfaceFacts.
Variables Model Kwargs R : Type.
Variable process_single :
  Instance Model -> Path.t -> option Path.t -> Kwargs -> result R.
Variable transfer : batch_task Model Kwargs -> exn -> crossing.
Variable own_process_batch :
  Instance Model -> option (batch_method Model Kwargs R).

(** X17. [process_batch] of an interface called without a worker count
    hands the count one to [process_batch] of the processor held, whatever
    [config.max_workers] is.  When the class of that processor inherits
    [process_batch] from [BaseProcessor], files that are all processed
    successfully give their results in input order.  The single-file call
    goes to [process_single] of the processor held. *)
Theorem X17_interface_batch_defaults_to_one_worker :
  forall (cfg : CreamConfig) (sched : list nat) (itf : ProcessorInterface Model)
         (files : list Path.t) (output_dir : option Path.t) (kw : Kwargs)
         (results : list R),
    Forall2 (fun f r =>
               process_single (processor itf) f (output_path_for output_dir f) kw
               = Ok r)
            files results ->
    (own_process_batch (processor itf) = None ->
     fst (interface_process_batch process_single transfer own_process_batch
            cfg sched itf files output_dir None kw) = Ends (Ok results))
    /\ interface_process_batch process_single transfer own_process_batch
         cfg sched itf files output_dir None kw
       = processor_process_batch process_single transfer own_process_batch
           (processor itf) cfg sched (processor itf) files output_dir
           (Some 1%Z) kw
    /\ interface_process_batch process_single transfer own_process_batch
         cfg sched itf files output_dir None kw
       = interface_process_batch process_single transfer own_process_batch
           cfg sched itf files output_dir (Some 1%Z) kw
    /\ (forall f o, process_file process_single itf f o kw
                    = process_single (processor itf) f o kw).
Proof.
  intros cfg sched itf files output_dir kw results Hres.
  split; [|split; [|split]; reflexivity].
  intros Hown.
  unfold interface_process_batch, processor_process_batch. rewrite Hown.
  unfold BaseProcessor_process_batch. cbv zeta.
  assert (Hs : ParallelProcessor.succeed_with (_process_single_task process_single)
                 (map (fun f => (processor itf, f, output_dir, kw)) files) results).
  { unfold ParallelProcessor.succeed_with.
    induction Hres as [|f r fs rs Hf _ IH]; simpl; constructor; assumption. }
  destruct files as [|f fs].
  - inversion Hres. reflexivity.
  - rewrite process_batch_sequential by (simpl; congruence || reflexivity).
    cbv zeta. rewrite (sequential_loop_ok Hs). reflexivity.
Qed.

End InterfaceFacts.

(** X17 at a configuration asking for eight workers. *)
Lemma X17_interface_batch_defaults_to_one_worker_witness :
  fst (interface_process_batch BatchExamples.process_single
         BatchExamples.transfer BatchExamples.own_process_batch
         (CreamConfigOps.set_parallel_config config (Some 8%Z) None) [3; 1]
         {| method := "audio_resampler"; processor := BatchExamples.resampler |}
         BatchExamples.files None None (Dict.empty string))
  = Ends (Ok ["in/a.wav"; "in/b.FLAC"]).
Proof.
  refine (proj1 (@X17_interface_batch_defaults_to_one_worker Repo.Model
                   (Dict.t string) Path.t BatchExamples.process_single
                   BatchExamples.transfer BatchExamples.own_process_batch
                   (CreamConfigOps.set_parallel_config config (Some 8%Z) None)
                   [3; 1]
                   {| method := "audio_resampler";
                      processor := BatchExamples.resampler |}
                   BatchExamples.files None (Dict.empty string)
                   ["in/a.wav"; "in/b.FLAC"] _) eq_refl).
  repeat constructor.
Defined.

(** ** Counting words *)

Section WordCountFacts.
Import TextMetaViewer.

Lemma flush_tokens (cur : text) :
  Forall (fun c => is_alnum c = true) cur -> Forall is_token (flush cur).
Proof.
  intros H. destruct cur as [|c r]; simpl; constructor; [|constructor].
  right. split; [discriminate | exact H].
Qed.

Lemma scan_tokens (t : text) :
  forall cur,
    Forall (fun c => is_alnum c = true) cur -> Forall is_token (scan cur t).
Proof.
  induction t as [|c r IH]; intros cur Hcur; simpl.
  - now apply flush_tokens.
  - destruct (is_cjk c) eqn:Ec.
    + apply Forall_app. split; [now apply flush_tokens|].
      constructor; [|apply IH; constructor].
      left. now exists c.
    + destruct (is_alnum c) eqn:Ea.
      * apply IH. apply Forall_app. split; [exact Hcur|]. now constructor.
      * apply Forall_app. split; [now apply flush_tokens | apply IH; constructor].
Qed.

Lemma flush_length (cur : text) : List.length (flush cur) <= 1.
Proof. destruct cur; simpl; lia. Qed.

Lemma scan_length (t : text) :
  forall cur, List.length (scan cur t) <= List.length (flush cur) + List.length t.
Proof.
  induction t as [|c r IH]; intros cur; simpl; [lia|].
  destruct (is_cjk c).
  - rewrite length_app. simpl. specialize (IH []). simpl in IH. lia.
  - destruct (is_alnum c).
    + specialize (IH (cur ++ [c])). pose proof (flush_length (cur ++ [c])). lia.
    + rewrite length_app. specialize (IH []). simpl in IH. lia.
Qed.

Lemma scan_nonempty_run (t : text) :
  forall cur, cur <> [] -> scan cur t <> [].
Proof.
  induction t as [|c r IH]; intros cur Hcur; simpl.
  - destruct cur; [congruence | discriminate].
  - destruct (is_cjk c); [destruct cur; [congruence | discriminate]|].
    destruct (is_alnum c).
    + apply IH. destruct cur; discriminate.
    + destruct cur; [congruence | discriminate].
Qed.

Lemma findall_nil_iff (t : text) :
  findall t = [] <-> Forall (fun c => is_separator c = true) t.
Proof.
  unfold findall, is_separator. induction t as [|c r IH]; simpl.
  - split; [constructor | reflexivity].
  - destruct (is_cjk c) eqn:Ec; simpl.
    + split; [discriminate|]. intros H. inversion H as [|? ? Hh Ht]; subst.
      rewrite Ec in Hh. discriminate.
    + destruct (is_alnum c) eqn:Ea; simpl.
      * split.
        -- intros H. exfalso. revert H. now apply scan_nonempty_run.
        -- intros H. inversion H as [|? ? Hh Ht]; subst.
           rewrite Ec, Ea in Hh. discriminate.
      * rewrite IH. split.
        -- intros H. constructor; [now rewrite Ec, Ea | exact H].
        -- intros H. now inversion H.
Qed.

Lemma scan_separator (a : text) :
  forall cur sep b,
    is_separator sep = true ->
    scan cur (a ++ sep :: b) = scan cur a ++ scan [] b.
Proof.
  induction a as [|c r IH]; intros cur sep b Hs; simpl.
  - unfold is_separator in Hs. apply andb_true_iff in Hs.
    destruct Hs as [H1 H2]. apply negb_true_iff in H1, H2.
    now rewrite H1, H2.
  - destruct (is_cjk c).
    + rewrite (IH [] sep b Hs). now rewrite <- app_assoc.
    + destruct (is_alnum c).
      * now apply IH.
      * rewrite (IH [] sep b Hs). now rewrite app_assoc.
Qed.

End WordCountFacts.

(** X19. The tokens [word_count] counts are single ideographs or
    non-empty runs of ASCII letters and digits; there are at most as many
    as characters, and none exactly when the text holds neither an
    ideograph nor a letter or digit. *)
Theorem X19_word_count_tokens :
  forall t : TextMetaViewer.text,
    Forall TextMetaViewer.is_token (TextMetaViewer.findall t)
    /\ TextMetaViewer.word_count t <= List.length t
    /\ (TextMetaViewer.word_count t = 0
        <-> Forall (fun c => TextMetaViewer.is_separator c = true) t).
Proof.
  intros t. split; [|split].
  - apply scan_tokens. constructor.
  - unfold TextMetaViewer.word_count, TextMetaViewer.findall.
    pose proof (scan_length t []) as H. simpl in H. exact H.
  - unfold TextMetaViewer.word_count. rewrite length_zero_iff_nil.
    apply findall_nil_iff.
Qed.

(** X20. Words do not reach across a character that is neither an
    ideograph nor an ASCII letter or digit: the tokens of a text cut at
    such a character are the tokens of the part before followed by the
    tokens of the part after, and the word counts add up. *)
Theorem X20_word_count_adds_across_separator :
  forall (a b : TextMetaViewer.text) (sep : Z),
    TextMetaViewer.is_separator sep = true ->
    TextMetaViewer.findall (a ++ sep :: b)
    = TextMetaViewer.findall a ++ TextMetaViewer.findall b
    /\ TextMetaViewer.word_count (a ++ sep :: b)
       = TextMetaViewer.word_count a + TextMetaViewer.word_count b.
Proof.
  intros a b sep Hs.
  assert (H : TextMetaViewer.findall (a ++ sep :: b)
              = TextMetaViewer.findall a ++ TextMetaViewer.findall b).
  { unfold TextMetaViewer.findall. now apply scan_separator. }
  split; [exact H|].
  unfold TextMetaViewer.word_count. now rewrite H, length_app.
Qed.

(** X20 at two words and a space. *)
Lemma X20_word_count_adds_across_separator_witness :
  TextMetaViewer.word_count ([104; 105] ++ 32 :: [20013; 25991; 97; 49])%Z = 1 + 3.
Proof.
  exact (proj2 (@X20_word_count_adds_across_separator [104; 105]%Z
                  [20013; 25991; 97; 49]%Z 32%Z eq_refl)).
Defined.
